(** * SpeedW: the speed filter and the sample pipeline of [App.tsx]

    A shallow embedding of the computational core of [src/App.tsx]: the
    scalar Kalman filter built by [createKalmanFilter], the unit conversion
    [convertToKmh], the location callback registered by
    [startLocationTracking], and the [displaySpeed] memo.

    Numbers.  The source computes on JavaScript numbers; the specification
    describes the same algorithm over the reals.  The embedding follows the
    real-number reading with exact rationals ([Q]), which keeps every
    definition executable.  Equality of numbers is [Qeq] ([==]).  The one
    non-finite number the source uses, the [Infinity] speed limit, has its
    own constructor.  [Date.now()] is an input of each callback.

    The callback is embedded a second time, in module [Js], on numbers
    that overflow to an infinity and can be [NaN]; the two embeddings
    agree on every sample that does not overflow
    ([watchPosition_agrees]). *)

From Stdlib Require Import QArith Qabs Qround Qminmax ZArith List Lia Lqa.
From Stdlib Require Import Bool String DecimalString.
Import ListNotations.

Local Open Scope Q_scope.

(** ** Constants of [App.tsx] *)

Definition SPEED_LIMITS : list Q := [20; 40; 50; 60; 70; 80; 90; 100; 120].
Definition CALIBRATION : Q := 1.
Definition INITIAL_SPEED : Q := nth 3 SPEED_LIMITS 0.

(** ** The filter: [KalmanFilterState] and [createKalmanFilter]

    The fields are the source's [R], [Q], [P], [X], [K]; they carry the
    prefix [st_] because [Q] is the type of the numbers here. *)

Record KalmanFilterState : Set := mkKalman {
  st_R : Q;  (* measurement noise *)
  st_Q : Q;  (* process noise *)
  st_P : Q;  (* estimation error *)
  st_X : Q;  (* current estimate *)
  st_K : Q   (* Kalman gain *)
}.

Definition set_P (s : KalmanFilterState) (v : Q) : KalmanFilterState :=
  mkKalman (st_R s) (st_Q s) v (st_X s) (st_K s).
Definition set_X (s : KalmanFilterState) (v : Q) : KalmanFilterState :=
  mkKalman (st_R s) (st_Q s) (st_P s) v (st_K s).
Definition set_K (s : KalmanFilterState) (v : Q) : KalmanFilterState :=
  mkKalman (st_R s) (st_Q s) (st_P s) (st_X s) v.

(** The [state] object captured by the closure that [createKalmanFilter]
    returns. *)
Definition createKalmanFilter : KalmanFilterState :=
  {| st_R := 0.1; st_Q := 0.1; st_P := 1; st_X := 0; st_K := 0 |}.

(** The closure itself, with the captured object passed explicitly: one
    assignment of the source per [let].  The divisor [P + R] is positive
    in every state a filter reaches ([kalmanFilter_divisor_pos] below), so
    the value [Q] gives to a division by zero is never used. *)
Definition kalmanFilter (state : KalmanFilterState) (measurement : Q)
  : KalmanFilterState * Q :=
  (* state.P = state.P + state.Q *)
  let state := set_P state (st_P state + st_Q state) in
  (* state.K = state.P / (state.P + state.R) *)
  let state := set_K state (st_P state / (st_P state + st_R state)) in
  (* state.X = state.X + state.K * (measurement - state.X) *)
  let state := set_X state (st_X state + st_K state * (measurement - st_X state)) in
  (* state.P = (1 - state.K) * state.P *)
  let state := set_P state ((1 - st_K state) * st_P state) in
  (state, st_X state).

(** Feeding a list of measurements in arrival order: the state after each
    update, and the value each call returned. *)
Fixpoint filterStates (state : KalmanFilterState) (ms : list Q)
  : list KalmanFilterState :=
  match ms with
  | [] => []
  | m :: ms' =>
      let state' := fst (kalmanFilter state m) in
      state' :: filterStates state' ms'
  end.

Definition filterOutputs (state : KalmanFilterState) (ms : list Q) : list Q :=
  map st_X (filterStates state ms).

(** The same measurement fed [n] times. *)
Fixpoint feedConstant (state : KalmanFilterState) (m : Q) (n : nat)
  : KalmanFilterState :=
  match n with
  | O => state
  | S n' => fst (kalmanFilter (feedConstant state m n') m)
  end.

(** The update as the specification words it (section 4.1, steps 1 to 4):
    estimate, error-covariance and gain after one measurement. *)
Record SpecUpdate : Set := mkSpecUpdate {
  predicted : Q;
  gain : Q;
  estimate : Q;
  covariance : Q
}.

Definition specUpdate (R Q0 P X m : Q) : SpecUpdate :=
  let P' := P + Q0 in
  let K := P' / (P' + R) in
  {| predicted := P'; gain := K;
     estimate := X + K * (m - X);
     covariance := (1 - K) * P' |}.

(** ** Unit conversion *)

(** [Math.max(0, speedInMs * 3.6)] *)
Definition convertToKmh (speedInMs : Q) : Q := Qmax 0 (speedInMs * 3.6).

(** The conversion as the specification words it (section 4.2, step 1):
    clamp first, then multiply. *)
Definition specConvert (s : Q) : Q := Qmax 0 s * 3.6.

(** ** [toFixed(1)] and [parseFloat]

    [Number.prototype.toFixed] with one fraction digit: the sign is split
    off, a magnitude of at least 10^21 is printed by [ToString], and
    otherwise the integer [n] with [n / 10] closest to the magnitude is
    chosen, the larger one on a tie.  The resulting string is kept in
    structured form. *)
Inductive NumberString : Set :=
| Fixed1 (negative : bool) (tenths : Z)  (* sign, digits of n, point before the last digit *)
| Shortest (x : Q).                     (* the string ToString(x) *)

Definition Qltb (x y : Q) : bool := negb (Qle_bool y x).

Definition toFixed1 (x : Q) : NumberString :=
  let negative := Qltb x 0 in
  let a := if negative then - x else x in
  if Qle_bool (inject_Z (10 ^ 21)%Z) a then Shortest x
  else Fixed1 negative (Qfloor (a * 10 + 0.5)).

Definition parseFloat (s : NumberString) : Q :=
  match s with
  | Fixed1 negative n =>
      if negative then - (inject_Z n / 10) else inject_Z n / 10
  | Shortest x => x
  end.

(** The characters of a [Fixed1] string. *)
Definition digits (n : Z) : string :=
  NilZero.string_of_uint (N.to_uint (Z.to_N n)).

Definition fixed1Text (negative : bool) (n : Z) : string :=
  ((if negative then "-" else "") ++ digits (n / 10) ++ "." ++ digits (n mod 10))%string.

(** ** The sample pipeline of [startLocationTracking] *)

(** The speed limit held by [speedLimitRef]: one of the numbers offered by
    the tiles, or [Infinity] after the OFF tile. *)
Inductive Limit : Set :=
| Finite (l : Q)
| Infinity.

(** [currentSpeed >= speedLimitRef.current], for a finite [currentSpeed];
    [Js.ge] is the comparison on all numbers. *)
Definition exceeds (currentSpeed : Q) (limit : Limit) : bool :=
  match limit with
  | Finite l => Qle_bool l currentSpeed
  | Infinity => false
  end.

(** A position sample as the callback reads it: [coords.speed],
    [coords.accuracy] and [timestamp], each possibly missing. *)
Record Location : Set := mkLocation {
  speed : option Q;
  accuracy : option Q;
  timestamp : option Z
}.

(** [SpeedData]; [sd_timestamp] is [None] when the stored field is
    [undefined]. *)
Record SpeedData : Set := mkSpeedData {
  currentSpeed : Q;
  sd_accuracy : Q;
  sd_timestamp : option Z
}.

(** The [??] operator. *)
Definition nullish {A : Type} (o : option A) (d : A) : A :=
  match o with
  | Some v => v
  | None => d
  end.

(** [new Date(t).toISOString()] raises a [RangeError] unless [t] is a time
    value, a number of magnitude at most 8.64e15. *)
Definition validTime (t : option Z) : bool :=
  match t with
  | Some v => (Z.abs v <=? 8640000000000000)%Z
  | None => false
  end.

(** What a callback does to its collaborators, in program order; the
    text handed to [setDebug] is not kept. *)
Inductive Effect : Set :=
| SetSpeedData (d : SpeedData)
| SetDebug
| PlayWarningSound.

Inductive Completion : Set :=
| Normal
| RangeError.

(** The mutable objects the callback reaches: the filter created by
    [startLocationTracking], the two refs and the [speedData] state. *)
Record App : Set := mkApp {
  kalman : KalmanFilterState;
  speedLimitRef : Limit;
  lastSpeedWarning : Z;
  speedData : SpeedData
}.

(** The component at the start of a tracking session; [t0] is the
    [Date.now()] of the first render. *)
Definition startLocationTracking (t0 : Z) : App :=
  {| kalman := createKalmanFilter;
     speedLimitRef := Finite INITIAL_SPEED;
     lastSpeedWarning := 0%Z;
     speedData := {| currentSpeed := 0; sd_accuracy := 0; sd_timestamp := Some t0 |} |}.

(** The success callback handed to [Geolocation.watchPosition]; [now] is
    what [Date.now()] returns during the call. *)
Definition onLocation (location : Location) (now : Z) (app : App)
  : App * list Effect * Completion :=
  let rawSpeed := nullish (speed location) 0 in
  let speedInKmh := convertToKmh rawSpeed in
  let (kalman', x) := kalmanFilter (kalman app) speedInKmh in
  let filteredSpeed := x + CALIBRATION in
  let currentSpeed := parseFloat (toFixed1 filteredSpeed) in
  let data := {| currentSpeed := currentSpeed;
                 sd_accuracy := nullish (accuracy location) 0;
                 sd_timestamp := timestamp location |} in
  (* kalmanFilter(...) has updated the filter; setSpeedData(...) *)
  let app1 := mkApp kalman' (speedLimitRef app) (lastSpeedWarning app) data in
  if validTime (timestamp location) then
    if exceeds currentSpeed (speedLimitRef app1) then
      if (5000 <? now - lastSpeedWarning app1)%Z then
        (* playWarningSound(); lastSpeedWarning.current = now *)
        (mkApp kalman' (speedLimitRef app) now data,
         [SetSpeedData data; SetDebug; PlayWarningSound], Normal)
      else (app1, [SetSpeedData data; SetDebug], Normal)
    else (app1, [SetSpeedData data; SetDebug], Normal)
  else
    (* toISOString throws while the debug object is built *)
    (app1, [SetSpeedData data], RangeError).

(** The value [filteredSpeed] of a callback, before rounding. *)
Definition filteredSpeedOf (location : Location) (app : App) : Q :=
  snd (kalmanFilter (kalman app) (convertToKmh (nullish (speed location) 0)))
  + CALIBRATION.

Definition isWarning (e : Effect) : bool :=
  match e with
  | PlayWarningSound => true
  | _ => false
  end.

Definition published (e : Effect) : option SpeedData :=
  match e with
  | SetSpeedData d => Some d
  | _ => None
  end.

(** Whether a callback played the warning. *)
Definition alerted (location : Location) (now : Z) (app : App) : bool :=
  existsb isWarning (snd (fst (onLocation location now app))).

(** The stream of samples: [samples] lists the calls the host makes to
    the callback, in order, each with its [Date.now()]. *)
Fixpoint watchPosition (app : App) (samples : list (Location * Z))
  : App * list Effect :=
  match samples with
  | [] => (app, [])
  | (location, now) :: rest =>
      let '(app', effects, _) := onLocation location now app in
      let (app'', effects') := watchPosition app' rest in
      (app'', effects ++ effects')
  end.

(** The [Date.now()] of every callback that played the warning. *)
Fixpoint alertTimes (app : App) (samples : list (Location * Z)) : list Z :=
  match samples with
  | [] => []
  | (location, now) :: rest =>
      let app' := fst (fst (onLocation location now app)) in
      if alerted location now app then now :: alertTimes app' rest
      else alertTimes app' rest
  end.

Definition countWarnings (effects : list Effect) : nat :=
  List.length (filter isWarning effects).

Definition publishedData (effects : list Effect) : list SpeedData :=
  flat_map (fun e => match published e with Some d => [d] | None => [] end) effects.

(** The tiles: a numbered tile stores its limit, the OFF tile stores
    [Infinity] (and then releases the subscription and reloads the sound,
    which feeds no further sample). *)
Definition pressLimit (limit : Q) (app : App) : App :=
  mkApp (kalman app) (Finite limit) (lastSpeedWarning app) (speedData app).

Definition pressOff (app : App) : App :=
  mkApp (kalman app) Infinity (lastSpeedWarning app) (speedData app).

(** ** The [displaySpeed] memo *)

Definition displaySpeed (data : SpeedData) : NumberString :=
  let result := currentSpeed data in
  let result := if Qltb result 2 then 0 else result in
  toFixed1 result.

(** ** Vocabulary of the properties *)

(** The noise constants are positive and the stored error-covariance is
    not negative; every state of a running filter is of this kind. *)
Definition wellFormed (s : KalmanFilterState) : Prop :=
  0 < st_R s /\ 0 < st_Q s /\ 0 <= st_P s.

(** The estimate and the error-covariance after [n] equal measurements
    [m], from a new filter. *)
Definition estimateAfter (m : Q) (n : nat) : Q :=
  st_X (feedConstant createKalmanFilter m n).

Definition covarianceAfter (m : Q) (n : nat) : Q :=
  st_P (feedConstant createKalmanFilter m n).

Definition convergesTo (u : nat -> Q) (l : Q) : Prop :=
  forall eps : Q, 0 < eps ->
    exists N : nat, forall n : nat, (N <= n)%nat -> Qabs (u n - l) < eps.

Definition distanceNonIncreasing (m : Q) : Prop :=
  forall n : nat,
    Qabs (estimateAfter m (S n) - m) <= Qabs (estimateAfter m n - m).

(** Successive alert times, each more than 5000 ms after the one before;
    [last] is the time of the alert before the first of the list. *)
Fixpoint spaced (last : Z) (times : list Z) : Prop :=
  match times with
  | [] => True
  | t :: times' => (5000 < t - last)%Z /\ spaced t times'
  end.

Definition pow2 (n : nat) : Q := inject_Z (2 ^ Z.of_nat n).

(** What a callback hands to [setSpeedData]. *)
Definition speedDataOf (location : Location) (app : App) : SpeedData :=
  {| currentSpeed := parseFloat (toFixed1 (filteredSpeedOf location app));
     sd_accuracy := nullish (accuracy location) 0;
     sd_timestamp := timestamp location |}.

(** The alert rule as the specification words it (section 4.2, step 5):
    the filtered and calibrated speed meets the limit, the limit is not
    the sentinel, and at least 5 seconds have passed since the last
    alert. *)
Definition specAlertRule (location : Location) (now : Z) (app : App) : Prop :=
  exceeds (filteredSpeedOf location app) (speedLimitRef app) = true /\
  speedLimitRef app <> Infinity /\
  (5000 <= now - lastSpeedWarning app)%Z.

(** The treatment of a partial sample as the specification words it:
    zero for a missing accuracy or timestamp, and the callback runs to
    its end. *)
Definition specPartialSample (location : Location) (now : Z) (app : App) : Prop :=
  let '(app', effects, completion) := onLocation location now app in
  (accuracy location = None -> sd_accuracy (speedData app') == 0) /\
  (timestamp location = None -> sd_timestamp (speedData app') = Some 0%Z) /\
  publishedData effects = [speedData app'] /\
  completion = Normal.

(** The first sample of a session, the sample a callback leaves behind. *)
Definition afterSample (location : Location) (now : Z) (app : App) : App :=
  fst (fst (onLocation location now app)).

(** The speed test as the specification words it (section 4.2, steps 4
    and 5): the filtered and calibrated value itself, neither rounded nor
    floored, against the limit. *)
Definition specSpeedTest (location : Location) (app : App) : bool :=
  exceeds (filteredSpeedOf location app) (speedLimitRef app).

Definition specComparedValue (location : Location) (now : Z) (app : App) : Prop :=
  validTime (timestamp location) = true ->
  (5000 < now - lastSpeedWarning app)%Z ->
  alerted location now app = specSpeedTest location app.

(** ** Rendering: [getSpeedColor], the warning image and the tiles *)

(** The four colours [getSpeedColor] returns. *)
Inductive Color : Set :=
| Red
| Orange
| Yellow
| Green.

Definition colorCode (c : Color) : string :=
  match c with
  | Red => "#e74c3c"
  | Orange => "#e7a23c"
  | Yellow => "#f1c40f"
  | Green => "#2ecc71"
  end.

Definition severity (c : Color) : nat :=
  match c with
  | Red => 3
  | Orange => 2
  | Yellow => 1
  | Green => 0
  end.

(** [speedLimit + d] and [speedLimit - d]; [Infinity] absorbs both. *)
Definition limitPlus (limit : Limit) (d : Q) : Limit :=
  match limit with
  | Finite l => Finite (l + d)
  | Infinity => Infinity
  end.

Definition limitMinus (limit : Limit) (d : Q) : Limit :=
  match limit with
  | Finite l => Finite (l - d)
  | Infinity => Infinity
  end.

(** [x > limit] *)
Definition above (x : Q) (limit : Limit) : bool :=
  match limit with
  | Finite l => Qltb l x
  | Infinity => false
  end.

(** [limit === other] on two limits. *)
Definition sameLimit (limit other : Limit) : bool :=
  match limit, other with
  | Finite a, Finite b => Qeq_bool a b
  | Infinity, Infinity => true
  | _, _ => false
  end.

Definition getSpeedColor (data : SpeedData) (speedLimit : Limit) : Color :=
  if above (currentSpeed data) (limitPlus speedLimit 4) then Red
  else if above (currentSpeed data) speedLimit then Orange
  else if above (currentSpeed data) (limitMinus speedLimit 10) then Yellow
  else Green.

(** [speedData.currentSpeed > speedLimit && <Image .../>] *)
Definition showsWarningImage (data : SpeedData) (speedLimit : Limit) : bool :=
  above (currentSpeed data) speedLimit.

(** The component: the objects of [App] together with the [speedLimit]
    state that the render reads. *)
Record Screen : Set := mkScreen {
  refs : App;
  speedLimit : Limit
}.

Definition initialScreen (t0 : Z) : Screen :=
  {| refs := startLocationTracking t0; speedLimit := Finite INITIAL_SPEED |}.

(** What can happen to the component: a numbered tile, the OFF tile, or a
    position handed to the callback. *)
Inductive UiEvent : Set :=
| TilePressed (limit : Q)
| OffPressed
| PositionReceived (location : Location) (now : Z).

Definition handle (screen : Screen) (event : UiEvent) : Screen :=
  match event with
  | TilePressed limit =>
      (* setSpeedLimit(limit); speedLimitRef.current = limit *)
      mkScreen (pressLimit limit (refs screen)) (Finite limit)
  | OffPressed =>
      (* setSpeedLimit(Infinity); speedLimitRef.current = Infinity *)
      mkScreen (pressOff (refs screen)) Infinity
  | PositionReceived location now =>
      mkScreen (afterSample location now (refs screen)) (speedLimit screen)
  end.

Definition handleAll (screen : Screen) (events : list UiEvent) : Screen :=
  fold_left handle events screen.

(** The tiles drawn as selected: the numbered tiles with
    [speedLimit === limit], then the OFF tile with
    [speedLimit === Infinity]. *)
Definition selectedTiles (screen : Screen) : list bool :=
  map (fun limit => sameLimit (speedLimit screen) (Finite limit)) SPEED_LIMITS
  ++ [sameLimit (speedLimit screen) Infinity].

Definition countSelected (tiles : list bool) : nat :=
  List.length (filter (fun selected => selected) tiles).

(** The tiles on offer are pressed with their own limit. *)
Definition offeredEvent (event : UiEvent) : Prop :=
  match event with
  | TilePressed limit => In limit SPEED_LIMITS
  | _ => True
  end.

(** ** The chart component [SpeedTimeChart] *)

Module SpeedTimeChart.

Record DataPoint : Set := mkDataPoint {
  time : Q;
  speed : Q
}.

(** [useState<DataPoint[]>([{speed: 0, time: 0}])] *)
Definition initialData : list DataPoint := [mkDataPoint 0 0].

(** [array.slice(-k)]: the last [k] elements, all of them when there are
    fewer. *)
Definition sliceLast {A : Type} (k : nat) (l : list A) : list A :=
  skipn (List.length l - k) l.

(** One run of the interval callback: [startTime] is the time captured at
    the first render, [currentTime] the [Date.now()] of the run and
    [newSpeed] the value of [speedRef.current]. *)
Definition tick (startTime : Z) (prevData : list DataPoint)
           (run : Z * Q) : list DataPoint :=
  let (currentTime, newSpeed) := run in
  let timeElapsed := inject_Z (currentTime - startTime) / 1000 in
  let newData := prevData ++ [mkDataPoint timeElapsed newSpeed] in
  if (20 <? List.length newData)%nat then sliceLast 20 newData else newData.

Definition ticks (startTime : Z) (data : list DataPoint)
           (runs : list (Z * Q)) : list DataPoint :=
  fold_left (tick startTime) runs data.

(** The points the runs append, before any trimming. *)
Definition pointsOf (startTime : Z) (runs : list (Z * Q)) : list DataPoint :=
  map (fun run => mkDataPoint (inject_Z (fst run - startTime) / 1000) (snd run)) runs.

(** [chartData]: one empty label and one value per point. *)
Definition chartLabels (data : list DataPoint) : list string :=
  map (fun _ => ""%string) data.

Definition chartValues (data : list DataPoint) : list Q :=
  map speed data.

End SpeedTimeChart.

(** ** Further vocabulary *)

(** The rounding that [parseFloat(x.toFixed(1))] performs. *)
Definition rounded (x : Q) : Q := parseFloat (toFixed1 x).

(** Two filter objects that differ in their estimate at most. *)
Definition sameNoiseAndCovariance (s s' : KalmanFilterState) : Prop :=
  st_R s = st_R s' /\ st_Q s = st_Q s' /\ st_P s = st_P s'.

(** ** The callback on JavaScript numbers

    The same code once more, on numbers that can be infinite or [NaN].
    A finite number is an exact rational; a result whose magnitude
    reaches [2^1024 - 2^970], where rounding to the nearest double gives
    an infinity, overflows; the rounding of results inside the range is
    not modelled, and zero has no sign (a division by zero takes the
    divisor as +0).  [Js.agrees_with_onLocation] below shows that this
    callback and [onLocation] do the same on samples that do not
    overflow. *)

Module Js.

Inductive Number : Set :=
| Num (q : Q)
| PosInfinity
| NegInfinity
| NaN.

Definition overflowThreshold : Q := inject_Z (2 ^ 1024 - 2 ^ 970).

(** The number an exact result becomes. *)
Definition fit (q : Q) : Number :=
  if Qle_bool overflowThreshold q then PosInfinity
  else if Qle_bool q (- overflowThreshold) then NegInfinity
  else Num q.

Definition infinityOf (positive : bool) : Number :=
  if positive then PosInfinity else NegInfinity.

(** An infinity of the given sign times, or divided by, a finite [y]. *)
Definition scaleInfinity (positive : bool) (y : Q) : Number :=
  match y ?= 0 with
  | Eq => NaN
  | Gt => infinityOf positive
  | Lt => infinityOf (negb positive)
  end.

Definition add (a b : Number) : Number :=
  match a, b with
  | NaN, _ | _, NaN => NaN
  | Num x, Num y => fit (x + y)
  | PosInfinity, NegInfinity | NegInfinity, PosInfinity => NaN
  | PosInfinity, _ | _, PosInfinity => PosInfinity
  | NegInfinity, _ | _, NegInfinity => NegInfinity
  end.

Definition sub (a b : Number) : Number :=
  match a, b with
  | NaN, _ | _, NaN => NaN
  | Num x, Num y => fit (x - y)
  | PosInfinity, PosInfinity | NegInfinity, NegInfinity => NaN
  | PosInfinity, _ | _, NegInfinity => PosInfinity
  | NegInfinity, _ | _, PosInfinity => NegInfinity
  end.

Definition mul (a b : Number) : Number :=
  match a, b with
  | NaN, _ | _, NaN => NaN
  | Num x, Num y => fit (x * y)
  | PosInfinity, Num y | Num y, PosInfinity => scaleInfinity true y
  | NegInfinity, Num y | Num y, NegInfinity => scaleInfinity false y
  | PosInfinity, PosInfinity | NegInfinity, NegInfinity => PosInfinity
  | PosInfinity, NegInfinity | NegInfinity, PosInfinity => NegInfinity
  end.

Definition div (a b : Number) : Number :=
  match a, b with
  | NaN, _ | _, NaN => NaN
  | Num x, Num y =>
      if Qeq_bool y 0 then
        match x ?= 0 with
        | Eq => NaN
        | Gt => PosInfinity
        | Lt => NegInfinity
        end
      else fit (x / y)
  | Num _, _ => Num 0
  | PosInfinity, Num y => if Qltb y 0 then NegInfinity else PosInfinity
  | NegInfinity, Num y => if Qltb y 0 then PosInfinity else NegInfinity
  | _, _ => NaN
  end.

(** [Math.max(0, x)] *)
Definition max0 (x : Number) : Number :=
  match x with
  | Num q => Num (Qmax 0 q)
  | PosInfinity => PosInfinity
  | NegInfinity => Num 0
  | NaN => NaN
  end.

(** [a >= b] *)
Definition ge (a b : Number) : bool :=
  match a, b with
  | NaN, _ | _, NaN => false
  | Num x, Num y => Qle_bool y x
  | PosInfinity, _ => true
  | _, NegInfinity => true
  | _, _ => false
  end.

(** [parseFloat(x.toFixed(1))]: [toFixed] prints a number that is not
    finite by [ToString], and [parseFloat] reads that text back. *)
Definition rounded (x : Number) : Number :=
  match x with
  | Num q => Num (parseFloat (toFixed1 q))
  | _ => x
  end.

Record KalmanFilterState : Set := mkKalman {
  st_R : Number;
  st_Q : Number;
  st_P : Number;
  st_X : Number;
  st_K : Number
}.

Definition set_P (s : KalmanFilterState) (v : Number) : KalmanFilterState :=
  mkKalman (st_R s) (st_Q s) v (st_X s) (st_K s).
Definition set_X (s : KalmanFilterState) (v : Number) : KalmanFilterState :=
  mkKalman (st_R s) (st_Q s) (st_P s) v (st_K s).
Definition set_K (s : KalmanFilterState) (v : Number) : KalmanFilterState :=
  mkKalman (st_R s) (st_Q s) (st_P s) (st_X s) v.

Definition createKalmanFilter : KalmanFilterState :=
  {| st_R := Num 0.1; st_Q := Num 0.1; st_P := Num 1; st_X := Num 0; st_K := Num 0 |}.

Definition kalmanFilter (state : KalmanFilterState) (measurement : Number)
  : KalmanFilterState * Number :=
  (* state.P = state.P + state.Q *)
  let state := set_P state (add (st_P state) (st_Q state)) in
  (* state.K = state.P / (state.P + state.R) *)
  let state := set_K state (div (st_P state) (add (st_P state) (st_R state))) in
  (* state.X = state.X + state.K * (measurement - state.X) *)
  let state :=
    set_X state (add (st_X state) (mul (st_K state) (sub measurement (st_X state)))) in
  (* state.P = (1 - state.K) * state.P *)
  let state := set_P state (mul (sub (Num 1) (st_K state)) (st_P state)) in
  (state, st_X state).

(** [Math.max(0, speedInMs * 3.6)] *)
Definition convertToKmh (speedInMs : Number) : Number :=
  max0 (mul speedInMs (Num 3.6)).

Record Location : Set := mkLocation {
  speed : option Number;
  accuracy : option Number;
  timestamp : option Z
}.

Record SpeedData : Set := mkSpeedData {
  currentSpeed : Number;
  sd_accuracy : Number;
  sd_timestamp : option Z
}.

Inductive Effect : Set :=
| SetSpeedData (d : SpeedData)
| SetDebug
| PlayWarningSound.

Record App : Set := mkApp {
  kalman : KalmanFilterState;
  speedLimitRef : Number;
  lastSpeedWarning : Z;
  speedData : SpeedData
}.

Definition onLocation (location : Location) (now : Z) (app : App)
  : App * list Effect * Completion :=
  let rawSpeed := nullish (speed location) (Num 0) in
  let speedInKmh := convertToKmh rawSpeed in
  let (kalman', x) := kalmanFilter (kalman app) speedInKmh in
  let filteredSpeed := add x (Num CALIBRATION) in
  let currentSpeed := rounded filteredSpeed in
  let data := {| currentSpeed := currentSpeed;
                 sd_accuracy := nullish (accuracy location) (Num 0);
                 sd_timestamp := timestamp location |} in
  let app1 := mkApp kalman' (speedLimitRef app) (lastSpeedWarning app) data in
  if validTime (timestamp location) then
    if ge currentSpeed (speedLimitRef app1) then
      if (5000 <? now - lastSpeedWarning app1)%Z then
        (mkApp kalman' (speedLimitRef app) now data,
         [SetSpeedData data; SetDebug; PlayWarningSound], Normal)
      else (app1, [SetSpeedData data; SetDebug], Normal)
    else (app1, [SetSpeedData data; SetDebug], Normal)
  else
    (app1, [SetSpeedData data], RangeError).

Fixpoint watchPosition (app : App) (samples : list (Location * Z))
  : App * list Effect :=
  match samples with
  | [] => (app, [])
  | (location, now) :: rest =>
      let '(app', effects, _) := onLocation location now app in
      let (app'', effects') := watchPosition app' rest in
      (app'', effects ++ effects')
  end.

Definition isWarning (e : Effect) : bool :=
  match e with
  | PlayWarningSound => true
  | _ => false
  end.

Definition countWarnings (effects : list Effect) : nat :=
  List.length (filter isWarning effects).

Definition publishedData (effects : list Effect) : list SpeedData :=
  flat_map (fun e => match e with SetSpeedData d => [d] | _ => [] end) effects.

(** Whether a callback played the warning, the objects it leaves behind
    and its [filteredSpeed]. *)
Definition alerted (location : Location) (now : Z) (app : App) : bool :=
  existsb isWarning (snd (fst (onLocation location now app))).

Definition afterSample (location : Location) (now : Z) (app : App) : App :=
  fst (fst (onLocation location now app)).

Definition filteredSpeedOf (location : Location) (app : App) : Number :=
  add (snd (kalmanFilter (kalman app)
              (convertToKmh (nullish (speed location) (Num 0)))))
      (Num CALIBRATION).

(** The component at the start of a tracking session, and the OFF tile. *)
Definition startLocationTracking (t0 : Z) : App :=
  {| kalman := createKalmanFilter;
     speedLimitRef := Num INITIAL_SPEED;
     lastSpeedWarning := 0%Z;
     speedData := {| currentSpeed := Num 0; sd_accuracy := Num 0;
                     sd_timestamp := Some t0 |} |}.

Definition pressOff (app : App) : App :=
  mkApp (kalman app) PosInfinity (lastSpeedWarning app) (speedData app).

End Js.

(** Rational values as JavaScript numbers. *)
Definition jsLimit (limit : Limit) : Js.Number :=
  match limit with
  | Finite l => Js.Num l
  | Infinity => Js.PosInfinity
  end.

Definition jsKalman (s : KalmanFilterState) : Js.KalmanFilterState :=
  Js.mkKalman (Js.Num (st_R s)) (Js.Num (st_Q s)) (Js.Num (st_P s))
              (Js.Num (st_X s)) (Js.Num (st_K s)).

Definition jsLocation (location : Location) : Js.Location :=
  Js.mkLocation (option_map Js.Num (speed location))
                (option_map Js.Num (accuracy location))
                (timestamp location).

Definition jsSpeedData (data : SpeedData) : Js.SpeedData :=
  Js.mkSpeedData (Js.Num (currentSpeed data)) (Js.Num (sd_accuracy data))
                 (sd_timestamp data).

Definition jsEffect (e : Effect) : Js.Effect :=
  match e with
  | SetSpeedData d => Js.SetSpeedData (jsSpeedData d)
  | SetDebug => Js.SetDebug
  | PlayWarningSound => Js.PlayWarningSound
  end.

Definition jsApp (app : App) : Js.App :=
  Js.mkApp (jsKalman (kalman app)) (jsLimit (speedLimitRef app))
           (lastSpeedWarning app) (jsSpeedData (speedData app)).

Definition jsSample (sample : Location * Z) : Js.Location * Z :=
  (jsLocation (fst sample), snd sample).

(** A speed whose conversion to km/h stays within [speedBound], far
    inside the range of the doubles. *)
Definition speedBound : Q := inject_Z (10 ^ 300).

Definition inRange (location : Location) : Prop :=
  nullish (speed location) 0 * 3.6 <= speedBound.

(** A filter as a running session has it: the source's noise constants,
    an error-covariance between 0 and 1 and an estimate between 0 and
    [speedBound]. *)
Definition sessionFilter (s : KalmanFilterState) : Prop :=
  st_R s = 0.1 /\ st_Q s = 0.1 /\
  0 <= st_P s <= 1 /\ 0 <= st_X s <= speedBound.

(** * Properties *)

Example toFixed1_rounds_up : toFixed1 59.971 = Fixed1 false 600.
Proof. reflexivity. Qed.

Example toFixed1_negative : toFixed1 (-0.25) = Fixed1 true 3.
Proof. reflexivity. Qed.

Example fixed1Text_60 : fixed1Text false 600 = "60.0"%string.
Proof. reflexivity. Qed.

Example first_sample_30 :
  let result := onLocation (mkLocation (Some 30) (Some 5) (Some 1000%Z))
                  1700000000000%Z (startLocationTracking 0%Z) in
  map isWarning (snd (fst result)) = [false; false; true] /\
  currentSpeed (speedData (fst (fst result))) == 100 /\
  lastSpeedWarning (fst (fst result)) = 1700000000000%Z.
Proof. cbv zeta. repeat split. Qed.

(** ** One update of the filter *)

Section OneUpdate.

Variables p r : Q.
Hypothesis p_pos : 0 < p.
Hypothesis r_pos : 0 < r.

Lemma gain_pos : 0 < p / (p + r).
Proof. apply Qlt_shift_div_l; lra. Qed.

Lemma gain_lt_1 : p / (p + r) < 1.
Proof. apply Qlt_shift_div_r; lra. Qed.

Lemma posterior_closed_form : (1 - p / (p + r)) * p == p * r / (p + r).
Proof. field. lra. Qed.

Lemma posterior_pos : 0 < (1 - p / (p + r)) * p.
Proof.
  rewrite posterior_closed_form.
  apply Qlt_shift_div_l; [lra | nra].
Qed.

Lemma posterior_lt_r : (1 - p / (p + r)) * p < r.
Proof.
  rewrite posterior_closed_form.
  apply Qlt_shift_div_r; [lra | nra].
Qed.

Lemma posterior_lt_p : (1 - p / (p + r)) * p < p.
Proof.
  rewrite posterior_closed_form.
  apply Qlt_shift_div_r; [lra | nra].
Qed.

Variable q : Q.
Hypothesis q_pos : 0 < q.
Hypothesis q_le_p : q <= p.

Lemma gain_lower : q / (q + r) <= p / (p + r).
Proof.
  apply Qle_shift_div_l; [lra |].
  assert (E : q / (q + r) * (p + r) == q * (p + r) / (q + r)) by (field; lra).
  rewrite E. apply Qle_shift_div_r; [lra | nra].
Qed.

Lemma posterior_lower : r * q / (r + q) <= (1 - p / (p + r)) * p.
Proof.
  rewrite posterior_closed_form.
  apply Qle_shift_div_l; [lra |].
  assert (E : r * q / (r + q) * (p + r) == r * q * (p + r) / (r + q)) by (field; lra).
  rewrite E. apply Qle_shift_div_r; [lra | nra].
Qed.

End OneUpdate.

(** ** The filter on a stream of measurements *)

Lemma kalmanFilter_unfold (s : KalmanFilterState) (m : Q) :
  kalmanFilter s m =
  (let p := st_P s + st_Q s in
   let k := p / (p + st_R s) in
   let x := st_X s + k * (m - st_X s) in
   (mkKalman (st_R s) (st_Q s) ((1 - k) * p) x k, x)).
Proof. reflexivity. Qed.

Lemma kalmanFilter_wellFormed (s : KalmanFilterState) (m : Q) :
  wellFormed s -> wellFormed (fst (kalmanFilter s m)).
Proof.
  intros (HR & HQ & HP). rewrite kalmanFilter_unfold. cbn.
  repeat split; trivial.
  apply Qlt_le_weak, posterior_pos; lra.
Qed.

Lemma kalmanFilter_divisor_pos (s : KalmanFilterState) :
  wellFormed s -> 0 < st_P (set_P s (st_P s + st_Q s)) + st_R s.
Proof. intros (HR & HQ & HP). cbn. lra. Qed.

Lemma kalmanFilter_bounds (s : KalmanFilterState) (m : Q) :
  wellFormed s ->
  let s' := fst (kalmanFilter s m) in
  st_R s * st_Q s / (st_R s + st_Q s) <= st_P s' /\ st_P s' < st_R s /\
  st_Q s / (st_Q s + st_R s) <= st_K s' /\ st_K s' < 1.
Proof.
  intros (HR & HQ & HP). rewrite kalmanFilter_unfold. cbn.
  assert (Hp : 0 < st_P s + st_Q s) by lra.
  repeat split.
  - apply posterior_lower; lra.
  - apply posterior_lt_r; lra.
  - apply gain_lower; lra.
  - apply gain_lt_1; lra.
Qed.

Lemma filterStates_bounds (ms : list Q) :
  forall s : KalmanFilterState,
    wellFormed s ->
    Forall (fun s' =>
              st_R s' = st_R s /\ st_Q s' = st_Q s /\
              st_R s * st_Q s / (st_R s + st_Q s) <= st_P s' /\ st_P s' < st_R s /\
              st_Q s / (st_Q s + st_R s) <= st_K s' /\ st_K s' < 1)
           (filterStates s ms).
Proof.
  induction ms as [| m ms IH]; intros s Hs; cbn [filterStates].
  - constructor.
  - constructor.
    + split; [reflexivity | split; [reflexivity |]].
      apply kalmanFilter_bounds, Hs.
    + specialize (IH _ (kalmanFilter_wellFormed s m Hs)).
      rewrite kalmanFilter_unfold in IH |- *. cbn in IH |- *. exact IH.
Qed.

Lemma createKalmanFilter_wellFormed : wellFormed createKalmanFilter.
Proof. unfold wellFormed; cbn; lra. Qed.

(** C1. The closure returned by [createKalmanFilter] computes the update
    of the specification: predicted covariance [P + Q], gain
    [P' / (P' + R)], estimate [X + K * (m - X)], covariance [(1 - K) * P'];
    it stores estimate, covariance and gain, leaves [R] and [Q] alone and
    returns the estimate; the object starts with estimate 0, covariance 1,
    gain 0 and both noise constants 0.1. *)
Theorem kalmanFilter_is_specUpdate :
  (forall (s : KalmanFilterState) (m : Q),
      let u := specUpdate (st_R s) (st_Q s) (st_P s) (st_X s) m in
      predicted u = st_P s + st_Q s /\
      gain u = predicted u / (predicted u + st_R s) /\
      estimate u = st_X s + gain u * (m - st_X s) /\
      covariance u = (1 - gain u) * predicted u /\
      kalmanFilter s m =
        (mkKalman (st_R s) (st_Q s) (covariance u) (estimate u) (gain u),
         estimate u)) /\
  (forall (s : KalmanFilterState) (m : Q) (ms : list Q),
      filterStates s (m :: ms) =
        fst (kalmanFilter s m) :: filterStates (fst (kalmanFilter s m)) ms) /\
  createKalmanFilter = mkKalman 0.1 0.1 1 0 0.
Proof.
  split; [| split].
  - intros s m. cbn. repeat split.
  - reflexivity.
  - reflexivity.
Qed.

(** C2. Whatever non-negative measurements are fed in order to a new
    filter, after every update, the first included, the stored
    error-covariance is positive and at most [P0 + Q = 1.1], and the gain
    lies between 0 and 1. *)
Theorem covariance_and_gain_in_range (ms : list Q) :
  Forall (fun m => 0 <= m) ms ->
  Forall (fun s =>
            0 < st_P s /\
            st_P s <= st_P createKalmanFilter + st_Q createKalmanFilter /\
            st_P s <= 1.1 /\
            0 <= st_K s /\ st_K s <= 1)
         (filterStates createKalmanFilter ms).
Proof.
  intros _.
  eapply Forall_impl; [| apply filterStates_bounds, createKalmanFilter_wellFormed].
  cbn. intros s (_ & _ & HP & HP' & HK & HK').
  assert (E1 : 0.1 * 0.1 / (0.1 + 0.1) == 0.05) by reflexivity.
  assert (E2 : 0.1 / (0.1 + 0.1) == 0.5) by reflexivity.
  rewrite E1 in HP. rewrite E2 in HK.
  repeat split; lra.
Qed.

Lemma covariance_and_gain_in_range_witness :
  Forall (fun s =>
            0 < st_P s /\
            st_P s <= st_P createKalmanFilter + st_Q createKalmanFilter /\
            st_P s <= 1.1 /\
            0 <= st_K s /\ st_K s <= 1)
         (filterStates createKalmanFilter [0; 36; 108]).
Proof.
  apply (covariance_and_gain_in_range [0; 36; 108]).
  repeat constructor; discriminate.
Defined.

(** C10. With [R = Q = 0.1], after every update of a new filter, for any
    measurements, the stored error-covariance is at least
    [R * Q / (R + Q) = 0.05] and below [R = 0.1], and the gain is at least
    [Q / (Q + R) = 0.5]: the error-covariance stays away from 0. *)
Theorem covariance_floor (ms : list Q) :
  st_R createKalmanFilter * st_Q createKalmanFilter
    / (st_R createKalmanFilter + st_Q createKalmanFilter) == 0.05 /\
  st_Q createKalmanFilter
    / (st_Q createKalmanFilter + st_R createKalmanFilter) == 0.5 /\
  Forall (fun s => 0.05 <= st_P s /\ st_P s < 0.1 /\ 0.5 <= st_K s)
         (filterStates createKalmanFilter ms).
Proof.
  split; [reflexivity | split; [reflexivity |]].
  eapply Forall_impl; [| apply filterStates_bounds, createKalmanFilter_wellFormed].
  cbn. intros s (_ & _ & HP & HP' & HK & _).
  assert (E1 : 0.1 * 0.1 / (0.1 + 0.1) == 0.05) by reflexivity.
  assert (E2 : 0.1 / (0.1 + 0.1) == 0.5) by reflexivity.
  rewrite E1 in HP. rewrite E2 in HK.
  repeat split; lra.
Qed.

(** ** A constant measurement *)

Lemma feedConstant_noise (m : Q) (n : nat) :
  st_R (feedConstant createKalmanFilter m n) = 0.1 /\
  st_Q (feedConstant createKalmanFilter m n) = 0.1.
Proof. induction n as [| n IH]; [split; reflexivity | exact IH]. Qed.

Lemma feedConstant_wellFormed (m : Q) (n : nat) :
  wellFormed (feedConstant createKalmanFilter m n).
Proof.
  induction n as [| n IH]; cbn [feedConstant].
  - apply createKalmanFilter_wellFormed.
  - apply kalmanFilter_wellFormed, IH.
Qed.

Lemma feedConstant_bounds (m : Q) (n : nat) :
  0.05 <= covarianceAfter m (S n) /\ covarianceAfter m (S n) < 0.1 /\
  0.5 <= st_K (feedConstant createKalmanFilter m (S n)) /\
  st_K (feedConstant createKalmanFilter m (S n)) < 1.
Proof.
  unfold covarianceAfter. cbn [feedConstant].
  pose proof (kalmanFilter_bounds _ m (feedConstant_wellFormed m n)) as H.
  destruct (feedConstant_noise m n) as [ER EQ].
  cbv zeta in H. rewrite ER, EQ in H.
  assert (E1 : 0.1 * 0.1 / (0.1 + 0.1) == 0.05) by reflexivity.
  assert (E2 : 0.1 / (0.1 + 0.1) == 0.5) by reflexivity.
  rewrite E1, E2 in H. exact H.
Qed.

Lemma estimate_error_step (m : Q) (n : nat) :
  estimateAfter m (S n) - m ==
  (1 - st_K (feedConstant createKalmanFilter m (S n))) * (estimateAfter m n - m).
Proof.
  unfold estimateAfter. cbn [feedConstant].
  rewrite kalmanFilter_unfold. cbn. ring.
Qed.

Lemma estimate_error_halves (m : Q) (n : nat) :
  Qabs (estimateAfter m (S n) - m) * 2 <= Qabs (estimateAfter m n - m).
Proof.
  rewrite estimate_error_step, Qabs_Qmult.
  destruct (feedConstant_bounds m n) as (_ & _ & HK & HK').
  rewrite (Qabs_pos (1 - _)) by lra.
  pose proof (Qabs_nonneg (estimateAfter m n - m)). nra.
Qed.

Lemma estimate_error_nonincreasing (m : Q) : distanceNonIncreasing m.
Proof.
  intro n. pose proof (estimate_error_halves m n).
  pose proof (Qabs_nonneg (estimateAfter m (S n) - m)). lra.
Qed.

Lemma estimate_error_antitone (m : Q) (N n : nat) :
  (N <= n)%nat ->
  Qabs (estimateAfter m n - m) <= Qabs (estimateAfter m N - m).
Proof.
  induction 1 as [| n _ IH]; [apply Qle_refl |].
  eapply Qle_trans; [apply estimate_error_nonincreasing | exact IH].
Qed.

Lemma pow2_pos (n : nat) : 0 < pow2 n.
Proof.
  unfold pow2. change 0 with (inject_Z 0). rewrite <- Zlt_Qlt.
  apply Z.pow_pos_nonneg; lia.
Qed.

Lemma pow2_succ (n : nat) : pow2 (S n) == 2 * pow2 n.
Proof.
  unfold pow2. rewrite Nat2Z.inj_succ, Z.pow_succ_r by lia.
  rewrite inject_Z_mult. reflexivity.
Qed.

Lemma estimate_error_geometric (m : Q) (n : nat) :
  Qabs (estimateAfter m n - m) * pow2 n <= Qabs (estimateAfter m 0 - m).
Proof.
  induction n as [| n IH].
  - assert (E : pow2 0 == 1) by reflexivity. rewrite E. lra.
  - rewrite pow2_succ.
    pose proof (estimate_error_halves m n) as H.
    pose proof (pow2_pos n) as Hp.
    apply (Qmult_le_compat_r _ _ (pow2 n)) in H; [| lra].
    lra.
Qed.

(** Every rational is below some power of two. *)
Lemma pow2_unbounded (c : Q) : exists N : nat, c < pow2 N.
Proof.
  exists (Z.to_nat (Qceiling c)).
  destruct (Z.le_gt_cases 0 (Qceiling c)) as [Hc | Hc].
  - eapply Qle_lt_trans; [apply Qle_ceiling |].
    unfold pow2. rewrite <- Zlt_Qlt, Z2Nat.id by exact Hc.
    apply Z.pow_gt_lin_r; lia.
  - eapply Qle_lt_trans; [apply Qle_ceiling |].
    eapply Qlt_trans; [| apply pow2_pos].
    change 0 with (inject_Z 0). rewrite <- Zlt_Qlt. exact Hc.
Qed.

Lemma estimate_converges (m : Q) : convergesTo (estimateAfter m) m.
Proof.
  intros eps Heps.
  destruct (pow2_unbounded (Qabs (estimateAfter m 0 - m) / eps)) as [N HN].
  exists N. intros n Hn.
  eapply Qle_lt_trans; [apply estimate_error_antitone, Hn |].
  pose proof (estimate_error_geometric m N) as HG.
  pose proof (pow2_pos N) as HP.
  apply (Qmult_lt_r _ _ eps Heps) in HN.
  assert (E : Qabs (estimateAfter m 0 - m) / eps * eps
              == Qabs (estimateAfter m 0 - m)) by (field; lra).
  rewrite E in HN.
  assert (H : Qabs (estimateAfter m N - m) * pow2 N < eps * pow2 N) by lra.
  apply Qmult_lt_r in H; assumption.
Qed.

Lemma covariance_does_not_vanish (m : Q) : ~ convergesTo (covarianceAfter m) 0.
Proof.
  intro H. destruct (H 0.05) as [N HN]; [reflexivity |].
  specialize (HN (S N) (Nat.le_succ_diag_r N)).
  destruct (feedConstant_bounds m N) as (HP & _).
  rewrite Qabs_pos in HN by lra. lra.
Qed.

(** C5 (as stated). A constant measurement does not drive the
    error-covariance to 0: the claim fails for the measurement 36. *)
Lemma constant_input_covariance_claim_fails :
  ~ (distanceNonIncreasing 36 /\
     convergesTo (estimateAfter 36) 36 /\
     convergesTo (covarianceAfter 36) 0).
Proof. intros (_ & _ & H). exact (covariance_does_not_vanish 36 H). Qed.

(** C5 (amended). When the same measurement is fed again and again to a
    new filter, the distance of the output to the measurement never grows
    and the outputs converge to the measurement; the error-covariance
    stays at or above 0.05 after every update and does not converge
    to 0. *)
Theorem constant_input_converges (m : Q) :
  distanceNonIncreasing m /\
  convergesTo (estimateAfter m) m /\
  (forall n : nat, 0.05 <= covarianceAfter m (S n)) /\
  ~ convergesTo (covarianceAfter m) 0.
Proof.
  split; [apply estimate_error_nonincreasing |].
  split; [apply estimate_converges |].
  split; [intro n; apply feedConstant_bounds |].
  apply covariance_does_not_vanish.
Qed.

(** ** The unit conversion *)

(** C8. [convertToKmh] maps a raw speed [s] to [max(0, s) * 3.6], and
    what enters the filter is never negative. *)
Theorem convertToKmh_clamps_then_scales (s : Q) :
  convertToKmh s == specConvert s /\
  convertToKmh s == Qmax 0 s * 3.6 /\
  0 <= convertToKmh s /\
  (s <= 0 -> convertToKmh s == 0) /\
  (0 <= s -> convertToKmh s == s * 3.6).
Proof.
  unfold specConvert, convertToKmh.
  assert (E : Qmax 0 (s * 3.6) == Qmax 0 s * 3.6).
  { destruct (Qlt_le_dec s 0) as [Hs | Hs].
    - rewrite (Q.max_l 0 (s * 3.6)) by lra.
      rewrite (Q.max_l 0 s) by lra. ring.
    - rewrite (Q.max_r 0 (s * 3.6)) by lra.
      rewrite (Q.max_r 0 s) by lra. ring. }
  split; [exact E | split; [exact E |]].
  split; [apply Q.le_max_l |].
  split; intro Hs.
  - apply Q.max_l. lra.
  - apply Q.max_r. lra.
Qed.

Lemma convertToKmh_clamps_then_scales_witness :
  convertToKmh (-3) == 0 /\ convertToKmh 30 == 30 * 3.6.
Proof.
  split.
  - apply (convertToKmh_clamps_then_scales (-3)). discriminate.
  - apply (convertToKmh_clamps_then_scales 30). discriminate.
Defined.

(** ** The callback *)

Lemma onLocation_effects (location : Location) (now : Z) (app : App) :
  onLocation location now app =
  let data := speedDataOf location app in
  let kalman' := fst (kalmanFilter (kalman app)
                        (convertToKmh (nullish (speed location) 0))) in
  if validTime (timestamp location) then
    if exceeds (currentSpeed data) (speedLimitRef app) then
      if (5000 <? now - lastSpeedWarning app)%Z then
        (mkApp kalman' (speedLimitRef app) now data,
         [SetSpeedData data; SetDebug; PlayWarningSound], Normal)
      else (mkApp kalman' (speedLimitRef app) (lastSpeedWarning app) data,
            [SetSpeedData data; SetDebug], Normal)
    else (mkApp kalman' (speedLimitRef app) (lastSpeedWarning app) data,
          [SetSpeedData data; SetDebug], Normal)
  else (mkApp kalman' (speedLimitRef app) (lastSpeedWarning app) data,
        [SetSpeedData data], RangeError).
Proof. reflexivity. Qed.

Lemma alerted_eq (location : Location) (now : Z) (app : App) :
  alerted location now app =
  validTime (timestamp location)
  && exceeds (currentSpeed (speedDataOf location app)) (speedLimitRef app)
  && (5000 <? now - lastSpeedWarning app)%Z.
Proof.
  unfold alerted. rewrite onLocation_effects. cbv zeta.
  destruct (validTime (timestamp location)),
    (exceeds (currentSpeed (speedDataOf location app)) (speedLimitRef app)),
    (5000 <? now - lastSpeedWarning app)%Z; reflexivity.
Qed.

Lemma afterSample_refs (location : Location) (now : Z) (app : App) :
  let app' := afterSample location now app in
  kalman app' = fst (kalmanFilter (kalman app)
                       (convertToKmh (nullish (speed location) 0))) /\
  speedLimitRef app' = speedLimitRef app /\
  lastSpeedWarning app' =
    (if alerted location now app then now else lastSpeedWarning app) /\
  speedData app' = speedDataOf location app.
Proof.
  unfold afterSample. rewrite alerted_eq, onLocation_effects. cbv zeta.
  destruct (validTime (timestamp location)),
    (exceeds (currentSpeed (speedDataOf location app)) (speedLimitRef app)),
    (5000 <? now - lastSpeedWarning app)%Z; cbn; repeat split.
Qed.

Lemma onLocation_published (location : Location) (now : Z) (app : App) :
  publishedData (snd (fst (onLocation location now app)))
  = [speedDataOf location app].
Proof.
  rewrite onLocation_effects. cbv zeta.
  destruct (validTime (timestamp location)),
    (exceeds (currentSpeed (speedDataOf location app)) (speedLimitRef app)),
    (5000 <? now - lastSpeedWarning app)%Z; reflexivity.
Qed.

Lemma onLocation_countWarnings (location : Location) (now : Z) (app : App) :
  countWarnings (snd (fst (onLocation location now app)))
  = if alerted location now app then 1%nat else 0%nat.
Proof.
  rewrite alerted_eq, onLocation_effects. cbv zeta.
  destruct (validTime (timestamp location)),
    (exceeds (currentSpeed (speedDataOf location app)) (speedLimitRef app)),
    (5000 <? now - lastSpeedWarning app)%Z; reflexivity.
Qed.

Lemma watchPosition_cons (app : App) (location : Location) (now : Z)
      (rest : list (Location * Z)) :
  watchPosition app ((location, now) :: rest) =
  (fst (watchPosition (afterSample location now app) rest),
   snd (fst (onLocation location now app))
   ++ snd (watchPosition (afterSample location now app) rest)).
Proof.
  cbn [watchPosition]. unfold afterSample.
  destruct (onLocation location now app) as [[app' effects] c]. cbn.
  destruct (watchPosition app' rest). reflexivity.
Qed.

(** ** Alerts *)

Lemma exceeds_true_iff (x : Q) (limit : Limit) :
  exceeds x limit = true <-> exists l : Q, limit = Finite l /\ l <= x.
Proof.
  destruct limit as [l |]; cbn.
  - rewrite Qle_bool_iff. split.
    + intro H. exists l. split; [reflexivity | exact H].
    + intros (l' & E & H). injection E as ->. exact H.
  - split; [discriminate | intros (l & E & _); discriminate].
Qed.

Lemma alertTimes_cons (app : App) (location : Location) (now : Z)
      (rest : list (Location * Z)) :
  alertTimes app ((location, now) :: rest) =
  if alerted location now app
  then now :: alertTimes (afterSample location now app) rest
  else alertTimes (afterSample location now app) rest.
Proof. reflexivity. Qed.

Lemma alertTimes_spaced (samples : list (Location * Z)) :
  forall app : App, spaced (lastSpeedWarning app) (alertTimes app samples).
Proof.
  induction samples as [| [location now] rest IH]; intro app.
  - exact I.
  - rewrite alertTimes_cons.
    destruct (afterSample_refs location now app) as (_ & _ & HL & _).
    specialize (IH (afterSample location now app)). rewrite HL in IH.
    destruct (alerted location now app) eqn:HA.
    + split; [| exact IH].
      rewrite alerted_eq in HA.
      apply andb_prop in HA as [_ HA]. apply Z.ltb_lt, HA.
    + exact IH.
Qed.

Lemma countWarnings_app (e1 e2 : list Effect) :
  countWarnings (e1 ++ e2) = (countWarnings e1 + countWarnings e2)%nat.
Proof. unfold countWarnings. rewrite filter_app, length_app. reflexivity. Qed.

Lemma countWarnings_alertTimes (samples : list (Location * Z)) :
  forall app : App,
    countWarnings (snd (watchPosition app samples))
    = List.length (alertTimes app samples).
Proof.
  induction samples as [| [location now] rest IH]; intro app.
  - reflexivity.
  - rewrite watchPosition_cons, alertTimes_cons. cbn [snd].
    rewrite countWarnings_app, onLocation_countWarnings, IH.
    destruct (alerted location now app); reflexivity.
Qed.

(** The speed a callback compares depends on the filter and on the raw
    speed only. *)
Lemma currentSpeed_speedDataOf (location : Location) (app : App) :
  currentSpeed (speedDataOf location app) =
  parseFloat (toFixed1 (snd (kalmanFilter (kalman app)
                               (convertToKmh (nullish (speed location) 0)))
                        + CALIBRATION)).
Proof. reflexivity. Qed.

(** C3 (as stated). With a speed far above the limit, a limit of 60 and
    exactly 5000 ms since the last alert, the rule of the specification
    holds but the callback plays no warning. *)
Lemma alert_rule_claim_fails_at_5000 :
  let first := mkLocation (Some 30) (Some 5) (Some 1700000000000%Z) in
  let second := mkLocation (Some 30) (Some 5) (Some 1700000005000%Z) in
  let app := afterSample first 1700000000000%Z (startLocationTracking 0%Z) in
  lastSpeedWarning app = 1700000000000%Z /\
  specAlertRule second 1700000005000%Z app /\
  alerted second 1700000005000%Z app = false /\
  ~ (alerted second 1700000005000%Z app = true
     <-> specAlertRule second 1700000005000%Z app).
Proof.
  cbv zeta.
  assert (HS : specAlertRule (mkLocation (Some 30) (Some 5) (Some 1700000005000%Z))
                 1700000005000%Z
                 (afterSample (mkLocation (Some 30) (Some 5) (Some 1700000000000%Z))
                    1700000000000%Z (startLocationTracking 0%Z))).
  { split; [vm_compute; reflexivity |].
    split; vm_compute; discriminate. }
  assert (HA : alerted (mkLocation (Some 30) (Some 5) (Some 1700000005000%Z))
                 1700000005000%Z
                 (afterSample (mkLocation (Some 30) (Some 5) (Some 1700000000000%Z))
                    1700000000000%Z (startLocationTracking 0%Z)) = false)
    by (vm_compute; reflexivity).
  split; [vm_compute; reflexivity |].
  split; [exact HS |].
  split; [exact HA |].
  intros [_ H]. rewrite (H HS) in HA. discriminate HA.
Qed.

Lemma Js_alerted_eq (location : Js.Location) (now : Z) (app : Js.App) :
  Js.currentSpeed (Js.speedData (Js.afterSample location now app))
  = Js.rounded (Js.filteredSpeedOf location app) /\
  Js.alerted location now app =
  validTime (Js.timestamp location)
  && Js.ge (Js.rounded (Js.filteredSpeedOf location app)) (Js.speedLimitRef app)
  && (5000 <? now - Js.lastSpeedWarning app)%Z.
Proof.
  unfold Js.alerted, Js.afterSample, Js.filteredSpeedOf, Js.onLocation.
  destruct (Js.kalmanFilter (Js.kalman app)
              (Js.convertToKmh (nullish (Js.speed location) (Js.Num 0))))
    as [kalman' x].
  cbn [snd Js.speedLimitRef Js.lastSpeedWarning].
  destruct (validTime (Js.timestamp location)),
    (Js.ge (Js.rounded (Js.add x (Js.Num CALIBRATION))) (Js.speedLimitRef app)),
    (5000 <? now - Js.lastSpeedWarning app)%Z; split; reflexivity.
Qed.

(** C3 (amended). On a sample whose timestamp is a valid time, the
    callback plays the warning exactly when the published one-decimal
    speed meets or exceeds the current limit, which a finite speed never
    does for the [Infinity] limit, and more than 5000 ms have passed since
    the last warning; hence successive warnings are more than 5000 ms
    apart; and with raw speed 30 m/s, limit 60 and two samples 1 second
    apart in a new session, exactly one warning is played, on the first
    sample. *)
Theorem alert_rule :
  (forall (location : Js.Location) (now : Z) (app : Js.App),
      validTime (Js.timestamp location) = true ->
      Js.currentSpeed (Js.speedData (Js.afterSample location now app))
      = Js.rounded (Js.filteredSpeedOf location app) /\
      (Js.alerted location now app = true <->
       Js.ge (Js.currentSpeed (Js.speedData (Js.afterSample location now app)))
             (Js.speedLimitRef app) = true /\
       (5000 < now - Js.lastSpeedWarning app)%Z)) /\
  (forall (x l : Q),
      Js.ge (Js.Num x) Js.PosInfinity = false /\
      (Js.ge (Js.Num x) (Js.Num l) = true <-> l <= x)) /\
  (forall (app : App) (samples : list (Location * Z)),
      spaced (lastSpeedWarning app) (alertTimes app samples) /\
      countWarnings (snd (watchPosition app samples))
      = List.length (alertTimes app samples)) /\
  (forall (t0 t : Z) (acc1 acc2 : option Q) (ts1 ts2 : option Z),
      (5000 < t)%Z ->
      validTime ts1 = true ->
      validTime ts2 = true ->
      let samples := [(mkLocation (Some 30) acc1 ts1, t);
                      (mkLocation (Some 30) acc2 ts2, (t + 1000)%Z)] in
      let app := pressLimit 60 (startLocationTracking t0) in
      convertToKmh 30 == 108 /\
      alertTimes app samples = [t] /\
      countWarnings (snd (watchPosition app samples)) = 1%nat).
Proof.
  split; [| split; [| split]].
  - intros location now app Hv.
    destruct (Js_alerted_eq location now app) as [E1 E2].
    split; [exact E1 |].
    rewrite E1, E2, Hv, !andb_true_iff, Z.ltb_lt. tauto.
  - intros x l. split; [reflexivity |]. cbn [Js.ge]. apply Qle_bool_iff.
  - intros app samples. split.
    + apply alertTimes_spaced.
    + apply countWarnings_alertTimes.
  - intros t0 t acc1 acc2 ts1 ts2 Ht H1 H2. cbv zeta.
    split; [reflexivity |].
    assert (E : alertTimes (pressLimit 60 (startLocationTracking t0))
                  [(mkLocation (Some 30) acc1 ts1, t);
                   (mkLocation (Some 30) acc2 ts2, (t + 1000)%Z)] = [t]).
    { rewrite alertTimes_cons.
      assert (A1 : alerted (mkLocation (Some 30) acc1 ts1) t
                     (pressLimit 60 (startLocationTracking t0)) = true).
      { rewrite alerted_eq, currentSpeed_speedDataOf. cbn [timestamp].
        rewrite H1. cbn [andb].
        apply andb_true_intro. split; [vm_compute; reflexivity |].
        apply Z.ltb_lt. cbn. lia. }
      rewrite A1, alertTimes_cons.
      assert (A2 : alerted (mkLocation (Some 30) acc2 ts2) (t + 1000)%Z
                     (afterSample (mkLocation (Some 30) acc1 ts1) t
                        (pressLimit 60 (startLocationTracking t0))) = false).
      { rewrite alerted_eq.
        destruct (afterSample_refs (mkLocation (Some 30) acc1 ts1) t
                    (pressLimit 60 (startLocationTracking t0)))
          as (_ & _ & HL & _).
        rewrite HL, A1.
        replace (5000 <? t + 1000 - t)%Z with false
          by (symmetry; apply Z.ltb_ge; lia).
        apply andb_false_r. }
      rewrite A2. reflexivity. }
    split; [exact E |].
    rewrite countWarnings_alertTimes, E. reflexivity.
Qed.

Lemma alert_rule_witness :
  (Js.alerted (Js.mkLocation (Some (Js.Num 30)) (Some (Js.Num 5)) (Some 1700000001000%Z))
     1700000001000%Z (Js.startLocationTracking 1700000000000%Z) = true <->
   Js.ge (Js.currentSpeed
            (Js.speedData
               (Js.afterSample
                  (Js.mkLocation (Some (Js.Num 30)) (Some (Js.Num 5))
                     (Some 1700000001000%Z))
                  1700000001000%Z (Js.startLocationTracking 1700000000000%Z))))
         (Js.speedLimitRef (Js.startLocationTracking 1700000000000%Z)) = true /\
   (5000 < 1700000001000
           - Js.lastSpeedWarning (Js.startLocationTracking 1700000000000%Z))%Z) /\
  countWarnings
    (snd (watchPosition (pressLimit 60 (startLocationTracking 1700000000000%Z))
            [(mkLocation (Some 30) (Some 5) (Some 1700000001000%Z), 1700000001000%Z);
             (mkLocation (Some 30) (Some 5) (Some 1700000002000%Z),
              (1700000001000 + 1000)%Z)])) = 1%nat.
Proof.
  split.
  - apply (proj1 alert_rule
             (Js.mkLocation (Some (Js.Num 30)) (Some (Js.Num 5)) (Some 1700000001000%Z))
             1700000001000%Z (Js.startLocationTracking 1700000000000%Z)).
    reflexivity.
  - apply (proj2 (proj2 (proj2 alert_rule)) 1700000000000%Z 1700000001000%Z
             (Some 5) (Some 5) (Some 1700000001000%Z) (Some 1700000002000%Z)).
    + reflexivity.
    + reflexivity.
    + reflexivity.
Defined.

Lemma watchPosition_limit (samples : list (Location * Z)) :
  forall app : App,
    speedLimitRef (fst (watchPosition app samples)) = speedLimitRef app.
Proof.
  induction samples as [| [location now] rest IH]; intro app.
  - reflexivity.
  - rewrite watchPosition_cons. cbn [fst]. rewrite IH.
    apply afterSample_refs.
Qed.

Lemma alertTimes_off (samples : list (Location * Z)) :
  forall app : App, speedLimitRef app = Infinity -> alertTimes app samples = [].
Proof.
  induction samples as [| [location now] rest IH]; intros app Hoff.
  - reflexivity.
  - rewrite alertTimes_cons.
    assert (HA : alerted location now app = false).
    { rewrite alerted_eq, Hoff. cbn [exceeds].
      rewrite andb_false_r. reflexivity. }
    rewrite HA. apply IH.
    destruct (afterSample_refs location now app) as (_ & HL & _).
    rewrite HL. exact Hoff.
Qed.

(** ** Partial samples *)

(** C6 (as stated). A sample without a timestamp is published with the
    timestamp still missing, not zero, and the callback ends in a
    [RangeError] before the debug text and the alert test. *)
Lemma partial_sample_claim_fails_without_timestamp :
  let location := mkLocation (Some 10) (Some 5) None in
  let app := startLocationTracking 0%Z in
  sd_timestamp (speedData (afterSample location 1700000000000%Z app)) = None /\
  snd (onLocation location 1700000000000%Z app) = RangeError /\
  ~ specPartialSample location 1700000000000%Z app.
Proof.
  cbv zeta. split; [reflexivity |]. split; [reflexivity |].
  unfold specPartialSample. rewrite onLocation_effects. cbv zeta.
  cbn [timestamp validTime].
  intros (_ & _ & _ & H). discriminate H.
Qed.

Lemma publishedData_app (e1 e2 : list Effect) :
  publishedData (e1 ++ e2) = publishedData e1 ++ publishedData e2.
Proof. unfold publishedData. apply flat_map_app. Qed.

Lemma watchPosition_publishes (samples : list (Location * Z)) :
  forall app : App,
    List.length (publishedData (snd (watchPosition app samples)))
    = List.length samples.
Proof.
  induction samples as [| [location now] rest IH]; intro app.
  - reflexivity.
  - rewrite watchPosition_cons. cbn [snd].
    rewrite publishedData_app, onLocation_published, length_app, IH.
    reflexivity.
Qed.

(** C6 (amended). Every sample, partial or not, updates the filter and
    publishes one [SpeedData]; a missing accuracy is published as zero;
    the timestamp is published as received, without substitution; a
    callback whose sample has a valid timestamp runs to its end even when
    speed or accuracy are missing; and a stream of samples publishes once
    per sample. *)
Theorem partial_sample_published :
  (forall (location : Location) (now : Z) (app : App),
      let app' := afterSample location now app in
      publishedData (snd (fst (onLocation location now app))) = [speedData app'] /\
      kalman app' = fst (kalmanFilter (kalman app)
                           (convertToKmh (nullish (speed location) 0))) /\
      (accuracy location = None -> sd_accuracy (speedData app') = 0) /\
      (forall a : Q, accuracy location = Some a -> sd_accuracy (speedData app') = a) /\
      sd_timestamp (speedData app') = timestamp location /\
      (validTime (timestamp location) = true ->
       snd (onLocation location now app) = Normal)) /\
  (forall (app : App) (samples : list (Location * Z)),
      List.length (publishedData (snd (watchPosition app samples)))
      = List.length samples).
Proof.
  split.
  - intros location now app. cbv zeta.
    destruct (afterSample_refs location now app) as (HK & _ & _ & HD).
    rewrite HD, onLocation_published.
    split; [reflexivity |]. split; [exact HK |].
    split; [intro H; cbn; rewrite H; reflexivity |].
    split; [intros a H; cbn; rewrite H; reflexivity |].
    split; [reflexivity |].
    intro H. rewrite onLocation_effects. cbv zeta. rewrite H.
    destruct (exceeds (currentSpeed (speedDataOf location app)) (speedLimitRef app)),
      (5000 <? now - lastSpeedWarning app)%Z; reflexivity.
  - intros app samples. apply watchPosition_publishes.
Qed.

Lemma partial_sample_published_witness :
  sd_accuracy (speedData (afterSample (mkLocation (Some 10) None (Some 1700000000000%Z))
                            1700000000000%Z (startLocationTracking 0%Z))) = 0 /\
  snd (onLocation (mkLocation (Some 10) None (Some 1700000000000%Z))
         1700000000000%Z (startLocationTracking 0%Z)) = Normal.
Proof.
  destruct (proj1 partial_sample_published
              (mkLocation (Some 10) None (Some 1700000000000%Z))
              1700000000000%Z (startLocationTracking 0%Z))
    as (_ & _ & Hacc & _ & _ & Hend).
  split.
  - apply Hacc. reflexivity.
  - apply Hend. reflexivity.
Defined.

(** ** Rounding, the zero floor and the speed test *)

Lemma toFixed1_nonneg (x : Q) :
  0 <= x ->
  toFixed1 x = Shortest x \/ toFixed1 x = Fixed1 false (Qfloor (x * 10 + 0.5)).
Proof.
  intro Hx. unfold toFixed1, Qltb.
  assert (E : Qle_bool 0 x = true) by (apply Qle_bool_iff, Hx).
  rewrite E. cbn [negb].
  destruct (Qle_bool (inject_Z (10 ^ 21)) x); [left | right]; reflexivity.
Qed.

(** Rounding to one decimal never takes a value below a whole number that
    it had reached. *)
Lemma rounded_reaches_integer (z : Z) (x : Q) :
  (0 <= z)%Z -> inject_Z z <= x -> inject_Z z <= parseFloat (toFixed1 x).
Proof.
  intros Hz Hx.
  assert (H0 : 0 <= x).
  { eapply Qle_trans; [| exact Hx].
    change 0 with (inject_Z 0). rewrite <- Zle_Qle. exact Hz. }
  destruct (toFixed1_nonneg x H0) as [E | E]; rewrite E; cbn [parseFloat].
  - exact Hx.
  - apply Qle_shift_div_l; [reflexivity |].
    change 10 with (inject_Z 10). rewrite <- inject_Z_mult, <- Zle_Qle.
    rewrite <- (Qfloor_Z (z * 10)).
    apply Qfloor_resp_le. rewrite inject_Z_mult.
    change (inject_Z 10) with 10. lra.
Qed.

Lemma SPEED_LIMITS_whole (l : Q) :
  In l SPEED_LIMITS -> exists z : Z, (0 <= z)%Z /\ l = inject_Z z.
Proof.
  unfold SPEED_LIMITS. cbn [In].
  intros H.
  repeat (destruct H as [H | H];
          [rewrite <- H; eexists; split; [| reflexivity]; discriminate |]).
  contradiction.
Qed.

Lemma displaySpeed_floor (data : SpeedData) :
  currentSpeed data < 2 -> displaySpeed data = Fixed1 false 0.
Proof.
  intro H. unfold displaySpeed, Qltb.
  destruct (Qle_bool 2 (currentSpeed data)) eqn:E.
  - apply Qle_bool_iff in E. lra.
  - reflexivity.
Qed.

(** C7 (as stated). The callback compares the rounded speed: with raw
    speed 17.87 m/s the filtered and calibrated value is 59.971, below
    the limit 60, yet the warning is played because 60.0 is compared. *)
Lemma compared_value_claim_fails_below_limit :
  let location := mkLocation (Some 17.87) (Some 5) (Some 1700000000000%Z) in
  let app := startLocationTracking 0%Z in
  filteredSpeedOf location app == 59.971 /\
  specSpeedTest location app = false /\
  alerted location 1700000000000%Z app = true /\
  ~ specComparedValue location 1700000000000%Z app.
Proof.
  cbv zeta.
  split; [vm_compute; reflexivity |].
  split; [vm_compute; reflexivity |].
  split; [vm_compute; reflexivity |].
  intro H.
  assert (E : true = false); [| discriminate E].
  transitivity (alerted (mkLocation (Some 17.87) (Some 5) (Some 1700000000000%Z))
                  1700000000000%Z (startLocationTracking 0%Z)).
  - vm_compute; reflexivity.
  - rewrite H; vm_compute; reflexivity.
Qed.

(** C7 (amended). The zero floor below 2 km/h applies to the displayed
    value only; rounding to one decimal applies to the published speed,
    which is also the value the callback compares against the limit,
    without the zero floor.  So a sample whose filtered and calibrated
    value is at least a limit of the tiles passes the speed test, and a
    speed below 2 passes the test of a limit it reaches although it is
    displayed as zero. *)
Theorem compared_value_is_rounded_not_floored :
  (forall (location : Location) (now : Z) (app : App),
      currentSpeed (speedData (afterSample location now app))
      = parseFloat (toFixed1 (filteredSpeedOf location app)) /\
      (validTime (timestamp location) = true ->
       (5000 < now - lastSpeedWarning app)%Z ->
       alerted location now app
       = exceeds (currentSpeed (speedData (afterSample location now app)))
                 (speedLimitRef app))) /\
  (forall (l x : Q),
      In l SPEED_LIMITS -> l <= x ->
      exceeds (parseFloat (toFixed1 x)) (Finite l) = true) /\
  (forall (data : SpeedData) (l : Q),
      currentSpeed data < 2 -> l <= currentSpeed data ->
      displaySpeed data = Fixed1 false 0 /\
      exceeds (currentSpeed data) (Finite l) = true).
Proof.
  split; [| split].
  - intros location now app.
    destruct (afterSample_refs location now app) as (_ & _ & _ & HD).
    rewrite HD. split; [reflexivity |].
    intros Hv Ht. rewrite alerted_eq, Hv.
    apply Z.ltb_lt in Ht. rewrite Ht, andb_true_r. reflexivity.
  - intros l x Hl Hx.
    destruct (SPEED_LIMITS_whole l Hl) as (z & Hz & ->).
    cbn [exceeds]. apply Qle_bool_iff.
    apply rounded_reaches_integer; assumption.
  - intros data l H2 Hl. split.
    + apply displaySpeed_floor, H2.
    + cbn [exceeds]. apply Qle_bool_iff, Hl.
Qed.

Lemma compared_value_is_rounded_not_floored_witness :
  exceeds (parseFloat (toFixed1 60.04)) (Finite 60) = true /\
  displaySpeed (mkSpeedData 1.5 0 None) = Fixed1 false 0 /\
  exceeds (currentSpeed (mkSpeedData 1.5 0 None)) (Finite 1) = true.
Proof.
  split.
  - apply (proj1 (proj2 compared_value_is_rounded_not_floored) 60 60.04).
    + cbn. tauto.
    + discriminate.
  - apply (proj2 (proj2 compared_value_is_rounded_not_floored)
             (mkSpeedData 1.5 0 None) 1).
    + reflexivity.
    + discriminate.
Defined.

(** ** A stationary device *)

Lemma toFixed1_one (x : Q) : x == 1 -> toFixed1 x = Fixed1 false 10.
Proof.
  intro H. unfold toFixed1, Qltb.
  assert (E1 : Qle_bool 0 x = true) by (rewrite H; reflexivity).
  assert (E2 : Qle_bool (inject_Z (10 ^ 21)) x = false) by (rewrite H; reflexivity).
  assert (E3 : Qfloor (x * 10 + 0.5) = 10%Z) by (rewrite H; reflexivity).
  rewrite E1. cbn [negb]. rewrite E2, E3. reflexivity.
Qed.

Lemma convertToKmh_zero (s : Q) : s == 0 -> convertToKmh s == 0.
Proof. intro H. unfold convertToKmh. rewrite H. reflexivity. Qed.

Lemma stationary_sample (location : Location) (now : Z) (app : App) :
  st_X (kalman app) == 0 ->
  nullish (speed location) 0 == 0 ->
  st_X (kalman (afterSample location now app)) == 0 /\
  speedDataOf location app
  = mkSpeedData (inject_Z 10 / 10) (nullish (accuracy location) 0)
                (timestamp location).
Proof.
  intros HX Hs.
  assert (E : snd (kalmanFilter (kalman app)
                     (convertToKmh (nullish (speed location) 0))) == 0).
  { rewrite kalmanFilter_unfold. cbn.
    rewrite (convertToKmh_zero _ Hs), HX. ring. }
  split.
  - destruct (afterSample_refs location now app) as (HK & _).
    rewrite HK. exact E.
  - unfold speedDataOf, filteredSpeedOf.
    rewrite (toFixed1_one (_ + CALIBRATION)); [reflexivity |].
    rewrite E. reflexivity.
Qed.

Lemma stationary_stream (samples : list (Location * Z)) :
  forall app : App,
    st_X (kalman app) == 0 ->
    Forall (fun sample => nullish (speed (fst sample)) 0 == 0) samples ->
    Forall (fun data => currentSpeed data = inject_Z 10 / 10)
           (publishedData (snd (watchPosition app samples))).
Proof.
  induction samples as [| [location now] rest IH]; intros app HX Hs.
  - constructor.
  - inversion Hs as [| ? ? H1 H2]; subst.
    destruct (stationary_sample location now app HX H1) as [HX' HD].
    rewrite watchPosition_cons. cbn [snd].
    rewrite publishedData_app, onLocation_published, HD.
    constructor; [reflexivity |].
    apply IH; assumption.
Qed.

(** C9. When every sample of a session reports raw speed 0 m/s, every
    sample publishes a speed, one per sample, and every published speed
    equals the calibration constant, 1, and is displayed as zero, the
    text 0.0, being below the 2 km/h threshold. *)
Theorem stationary_publishes_calibration
        (t0 : Z) (samples : list (Location * Z)) :
  Forall (fun sample => exists s : Q, speed (fst sample) = Some s /\ s == 0) samples ->
  List.length (publishedData (snd (watchPosition (startLocationTracking t0) samples)))
  = List.length samples /\
  Forall (fun data =>
            currentSpeed data == CALIBRATION /\
            currentSpeed data == 1 /\
            currentSpeed data < 2 /\
            displaySpeed data = Fixed1 false 0)
         (publishedData (snd (watchPosition (startLocationTracking t0) samples))) /\
  fixed1Text false 0 = "0.0"%string.
Proof.
  intro Hs. split; [apply watchPosition_publishes |]. split; [| reflexivity].
  eapply Forall_impl; [| apply stationary_stream].
  - intros data E.
    assert (H1 : currentSpeed data == 1) by (rewrite E; reflexivity).
    assert (H2 : currentSpeed data < 2) by (rewrite H1; reflexivity).
    repeat split; trivial.
    apply displaySpeed_floor, H2.
  - reflexivity.
  - eapply Forall_impl; [| exact Hs].
    intros [location now] (s & E & H). cbn [fst] in *. rewrite E. exact H.
Qed.

Lemma stationary_publishes_calibration_witness :
  List.length
    (publishedData
       (snd (watchPosition (startLocationTracking 0%Z)
               [(mkLocation (Some 0) (Some 5) (Some 1700000000000%Z), 1700000000000%Z);
                (mkLocation (Some 0) None (Some 1700000001000%Z), 1700000001000%Z)])))
  = 2%nat /\
  Forall (fun data =>
            currentSpeed data == CALIBRATION /\
            currentSpeed data == 1 /\
            currentSpeed data < 2 /\
            displaySpeed data = Fixed1 false 0)
         (publishedData
            (snd (watchPosition (startLocationTracking 0%Z)
                    [(mkLocation (Some 0) (Some 5) (Some 1700000000000%Z), 1700000000000%Z);
                     (mkLocation (Some 0) None (Some 1700000001000%Z), 1700000001000%Z)]))).
Proof.
  destruct (stationary_publishes_calibration 0%Z
              [(mkLocation (Some 0) (Some 5) (Some 1700000000000%Z), 1700000000000%Z);
               (mkLocation (Some 0) None (Some 1700000001000%Z), 1700000001000%Z)])
    as (Hlen & Hall & _).
  - repeat constructor; exists 0; split; reflexivity.
  - split; [exact Hlen | exact Hall].
Defined.

(** * Further properties of the code *)

(** ** The filter between its inputs *)

Lemma kalmanFilter_between (s : KalmanFilterState) (m lo hi : Q) :
  wellFormed s ->
  lo <= st_X s <= hi -> lo <= m <= hi ->
  lo <= snd (kalmanFilter s m) <= hi.
Proof.
  intros (HR & HQ & HP) [HX1 HX2] [Hm1 Hm2].
  rewrite kalmanFilter_unfold. cbn.
  assert (Hp : 0 < st_P s + st_Q s) by lra.
  pose proof (gain_pos _ _ Hp HR) as K0.
  pose proof (gain_lt_1 _ _ Hp HR) as K1.
  set (k := (st_P s + st_Q s) / (st_P s + st_Q s + st_R s)) in *.
  split.
  - assert (A : 0 <= (1 - k) * (st_X s - lo)) by (apply Qmult_le_0_compat; lra).
    assert (B : 0 <= k * (m - lo)) by (apply Qmult_le_0_compat; lra).
    lra.
  - assert (A : 0 <= (1 - k) * (hi - st_X s)) by (apply Qmult_le_0_compat; lra).
    assert (B : 0 <= k * (hi - m)) by (apply Qmult_le_0_compat; lra).
    lra.
Qed.

(** X1. The filter never leaves the range of what it has seen: when the
    stored estimate and every measurement lie between [lo] and [hi], so
    does every value the filter returns. *)
Theorem filter_outputs_stay_in_range (ms : list Q) :
  forall (s : KalmanFilterState) (lo hi : Q),
    wellFormed s ->
    lo <= st_X s <= hi ->
    Forall (fun m => lo <= m <= hi) ms ->
    Forall (fun x => lo <= x <= hi) (filterOutputs s ms).
Proof.
  unfold filterOutputs.
  induction ms as [| m ms IH]; intros s lo hi Hs HX Hms; cbn [filterStates map].
  - constructor.
  - inversion Hms as [| ? ? Hm Hrest]; subst.
    pose proof (kalmanFilter_between s m lo hi Hs HX Hm) as Hout.
    constructor.
    + exact Hout.
    + apply IH; [apply kalmanFilter_wellFormed, Hs | exact Hout | exact Hrest].
Qed.

Lemma filter_outputs_stay_in_range_witness :
  Forall (fun x => 0 <= x <= 108) (filterOutputs createKalmanFilter [36; 108; 72]).
Proof.
  apply (filter_outputs_stay_in_range [36; 108; 72] createKalmanFilter 0 108).
  - unfold wellFormed. cbn. repeat split; discriminate.
  - cbn. split; discriminate.
  - repeat constructor; discriminate.
Defined.

(** ** The gain schedule *)

Lemma kalmanFilter_same_schedule (s s' : KalmanFilterState) (m m' : Q) :
  sameNoiseAndCovariance s s' ->
  sameNoiseAndCovariance (fst (kalmanFilter s m)) (fst (kalmanFilter s' m')) /\
  st_K (fst (kalmanFilter s m)) = st_K (fst (kalmanFilter s' m')).
Proof.
  intros (ER & EQ & EP). rewrite !kalmanFilter_unfold. cbn.
  rewrite ER, EQ, EP. repeat split.
Qed.

(** X2. The error-covariance and the gain after each update depend on
    how many measurements were fed, not on their values: two filters
    that start with the same noise constants and error-covariance go
    through the same covariances and gains on any two streams of equal
    length. *)
Theorem covariance_and_gain_ignore_measurements (ms : list Q) :
  forall (ms' : list Q) (s s' : KalmanFilterState),
    sameNoiseAndCovariance s s' ->
    List.length ms = List.length ms' ->
    map st_P (filterStates s ms) = map st_P (filterStates s' ms') /\
    map st_K (filterStates s ms) = map st_K (filterStates s' ms').
Proof.
  induction ms as [| m ms IH]; intros [| m' ms'] s s' Hs Hlen;
    try discriminate Hlen; cbn [filterStates map].
  - split; reflexivity.
  - destruct (kalmanFilter_same_schedule s s' m m' Hs) as [Hs' HK].
    injection Hlen as Hlen.
    destruct (IH ms' _ _ Hs' Hlen) as [IHP IHK].
    destruct Hs' as (_ & _ & HP).
    split; f_equal; assumption.
Qed.

Lemma covariance_and_gain_ignore_measurements_witness :
  map st_P (filterStates createKalmanFilter [0; 36])
  = map st_P (filterStates createKalmanFilter [108; 5]) /\
  map st_K (filterStates createKalmanFilter [0; 36])
  = map st_K (filterStates createKalmanFilter [108; 5]).
Proof.
  apply (covariance_and_gain_ignore_measurements [0; 36] [108; 5]).
  - repeat split.
  - reflexivity.
Defined.

(** ** Rounding to one decimal *)

Lemma rounded_cases (x : Q) :
  (0 <= x /\ inject_Z (10 ^ 21) <= x /\ rounded x = x) \/
  (0 <= x /\ x < inject_Z (10 ^ 21) /\
   rounded x = inject_Z (Qfloor (x * 10 + 0.5)) / 10) \/
  (x < 0 /\ inject_Z (10 ^ 21) <= - x /\ rounded x = x) \/
  (x < 0 /\ - x < inject_Z (10 ^ 21) /\
   rounded x = - (inject_Z (Qfloor (- x * 10 + 0.5)) / 10)).
Proof.
  unfold rounded, toFixed1, Qltb.
  destruct (Qle_bool 0 x) eqn:E0; cbn [negb].
  - apply Qle_bool_iff in E0.
    destruct (Qle_bool (inject_Z (10 ^ 21)) x) eqn:E1.
    + apply Qle_bool_iff in E1. left. repeat split; assumption.
    + right; left. repeat split; [assumption |].
      apply Qnot_le_lt. intro H. apply Qle_bool_iff in H. congruence.
  - assert (H0 : x < 0).
    { apply Qnot_le_lt. intro H. apply Qle_bool_iff in H. congruence. }
    destruct (Qle_bool (inject_Z (10 ^ 21)) (- x)) eqn:E1.
    + apply Qle_bool_iff in E1. right; right; left. repeat split; assumption.
    + right; right; right. repeat split; [assumption |].
      apply Qnot_le_lt. intro H. apply Qle_bool_iff in H. congruence.
Qed.

Lemma Qfloor_bounds (y : Q) :
  inject_Z (Qfloor y) <= y /\ y < inject_Z (Qfloor y) + 1.
Proof.
  split; [apply Qfloor_le |].
  pose proof (Qlt_floor y) as H. rewrite inject_Z_plus in H. exact H.
Qed.

Lemma tenth_times_10 (n : Z) : inject_Z n / 10 * 10 == inject_Z n.
Proof. field. Qed.

Lemma rounded_error (x : Q) : Qabs (rounded x - x) <= 0.05.
Proof.
  apply Qabs_Qle_condition.
  destruct (rounded_cases x) as [(_ & _ & E) | [(_ & _ & E) | [(_ & _ & E) | (_ & _ & E)]]];
    rewrite E.
  - split; lra.
  - destruct (Qfloor_bounds (x * 10 + 0.5)) as [H1 H2].
    pose proof (tenth_times_10 (Qfloor (x * 10 + 0.5))) as T.
    split; lra.
  - split; lra.
  - destruct (Qfloor_bounds (- x * 10 + 0.5)) as [H1 H2].
    pose proof (tenth_times_10 (Qfloor (- x * 10 + 0.5))) as T.
    split; lra.
Qed.

Lemma Qfloor_le_integer (y : Q) (n : Z) :
  y < inject_Z n + 1 -> (Qfloor y <= n)%Z.
Proof.
  intro H. apply Z.lt_succ_r. rewrite Zlt_Qlt.
  eapply Qle_lt_trans; [apply Qfloor_le |].
  unfold Z.succ. rewrite inject_Z_plus. exact H.
Qed.

Lemma Qfloor_ge_integer (y : Q) (n : Z) :
  inject_Z n <= y -> (n <= Qfloor y)%Z.
Proof.
  intro H. rewrite <- (Qfloor_Z n). apply Qfloor_resp_le, H.
Qed.

Lemma Qfloor_half (n : Z) (y : Q) : y == inject_Z n + 0.5 -> Qfloor y = n.
Proof.
  intro H. apply Z.le_antisymm.
  - apply Qfloor_le_integer. rewrite H. lra.
  - apply Qfloor_ge_integer. rewrite H. lra.
Qed.

Lemma big_pos : 0 < inject_Z (10 ^ 21).
Proof. reflexivity. Qed.

Lemma big_tenfold : inject_Z (10 ^ 21) * 10 == inject_Z (10 ^ 22).
Proof. reflexivity. Qed.

(** Below the switch to [ToString], the rounded magnitude does not pass
    the switch. *)
Lemma rounded_small_bound (a : Q) :
  0 <= a -> a < inject_Z (10 ^ 21) ->
  0 <= inject_Z (Qfloor (a * 10 + 0.5)) / 10 <= inject_Z (10 ^ 21).
Proof.
  intros H0 H1.
  pose proof (tenth_times_10 (Qfloor (a * 10 + 0.5))) as T.
  assert (L : (0 <= Qfloor (a * 10 + 0.5))%Z).
  { apply Qfloor_ge_integer. change (inject_Z 0) with 0. lra. }
  assert (U : (Qfloor (a * 10 + 0.5) <= 10 ^ 22)%Z).
  { apply Qfloor_le_integer. pose proof big_tenfold. lra. }
  rewrite Zle_Qle in L, U. change (inject_Z 0) with 0 in L.
  pose proof big_tenfold. split; lra.
Qed.

Lemma rounded_le (x y : Q) : x <= y -> rounded x <= rounded y.
Proof.
  intro Hxy. pose proof big_pos as HB.
  destruct (rounded_cases x) as [(X0 & X1 & EX) | [(X0 & X1 & EX) | [(X0 & X1 & EX) | (X0 & X1 & EX)]]];
    destruct (rounded_cases y) as [(Y0 & Y1 & EY) | [(Y0 & Y1 & EY) | [(Y0 & Y1 & EY) | (Y0 & Y1 & EY)]]];
    rewrite EX, EY; try lra.
  - (* x small, y large *)
    pose proof (rounded_small_bound x X0 X1). lra.
  - (* both small *)
    pose proof (tenth_times_10 (Qfloor (x * 10 + 0.5))) as TX.
    pose proof (tenth_times_10 (Qfloor (y * 10 + 0.5))) as TY.
    assert (H : (Qfloor (x * 10 + 0.5) <= Qfloor (y * 10 + 0.5))%Z)
      by (apply Qfloor_resp_le; lra).
    rewrite Zle_Qle in H. lra.
  - (* x below minus the switch, y small *)
    pose proof (rounded_small_bound y Y0 Y1). lra.
  - (* x below minus the switch, y negative and small *)
    assert (Y0' : 0 <= - y) by lra.
    pose proof (rounded_small_bound (- y) Y0' Y1). lra.
  - (* x negative and small, y large *)
    assert (X0' : 0 <= - x) by lra.
    pose proof (rounded_small_bound (- x) X0' X1). lra.
  - (* x negative and small, y small *)
    assert (X0' : 0 <= - x) by lra.
    pose proof (rounded_small_bound (- x) X0' X1).
    pose proof (rounded_small_bound y Y0 Y1). lra.
  - (* both negative and small *)
    pose proof (tenth_times_10 (Qfloor (- x * 10 + 0.5))) as TX.
    pose proof (tenth_times_10 (Qfloor (- y * 10 + 0.5))) as TY.
    assert (H : (Qfloor (- y * 10 + 0.5) <= Qfloor (- x * 10 + 0.5))%Z)
      by (apply Qfloor_resp_le; lra).
    rewrite Zle_Qle in H. lra.
Qed.

(** X6. Rounding to one decimal keeps the order of speeds. *)
Theorem rounded_monotone (x y : Q) : x <= y -> rounded x <= rounded y.
Proof. apply rounded_le. Qed.

Lemma rounded_monotone_witness : rounded 59.94 <= rounded 59.971.
Proof. apply (rounded_monotone 59.94 59.971). discriminate. Defined.

Lemma rounded_comp (x y : Q) : x == y -> rounded x == rounded y.
Proof.
  intro H. apply Qle_antisym; apply rounded_le; rewrite H; apply Qle_refl.
Qed.

Lemma rounded_tenths (z : Z) : rounded (inject_Z z / 10) == inject_Z z / 10.
Proof.
  pose proof (tenth_times_10 z) as T.
  destruct (rounded_cases (inject_Z z / 10))
    as [(_ & _ & E) | [(_ & _ & E) | [(_ & _ & E) | (_ & _ & E)]]]; rewrite E.
  - reflexivity.
  - rewrite (Qfloor_half z); [reflexivity | lra].
  - reflexivity.
  - rewrite (Qfloor_half (- z)).
    + rewrite inject_Z_opp. field.
    + rewrite inject_Z_opp. lra.
Qed.

Lemma rounded_fixed (x : Q) : rounded (rounded x) == rounded x.
Proof.
  destruct (rounded_cases x) as [(_ & _ & E) | [(_ & _ & E) | [(_ & _ & E) | (_ & _ & E)]]].
  - rewrite E. rewrite E. reflexivity.
  - rewrite E. apply rounded_tenths.
  - rewrite E. rewrite E. reflexivity.
  - rewrite E.
    assert (N : - (inject_Z (Qfloor (- x * 10 + 0.5)) / 10)
                == inject_Z (- Qfloor (- x * 10 + 0.5)) / 10)
      by (rewrite inject_Z_opp; field).
    rewrite (rounded_comp _ _ N), N. apply rounded_tenths.
Qed.


(** ** Published speeds *)


Lemma displaySpeed_shows (data : SpeedData) :
  2 <= currentSpeed data -> displaySpeed data = toFixed1 (currentSpeed data).
Proof.
  intro H. unfold displaySpeed, Qltb.
  apply Qle_bool_iff in H. rewrite H. reflexivity.
Qed.


(** X7. Rounding to one decimal leaves an already rounded speed alone;
    so the text the display prints for a published speed of at least 2
    reads back as that speed, and for a published speed below 2 it reads
    as 0. *)
Theorem rounded_idempotent (x : Q) (a : Q) (t : option Z) :
  rounded (rounded x) == rounded x /\
  (2 <= rounded x ->
   parseFloat (displaySpeed (mkSpeedData (rounded x) a t)) == rounded x) /\
  (rounded x < 2 ->
   parseFloat (displaySpeed (mkSpeedData (rounded x) a t)) == 0).
Proof.
  split; [apply rounded_fixed |]. split; intro H.
  - rewrite displaySpeed_shows by exact H. apply rounded_fixed.
  - rewrite displaySpeed_floor by exact H. reflexivity.
Qed.

Lemma rounded_idempotent_witness :
  parseFloat (displaySpeed (mkSpeedData (rounded 59.971) 5 None)) == rounded 59.971 /\
  parseFloat (displaySpeed (mkSpeedData (rounded 1.04) 5 None)) == 0.
Proof.
  split.
  - apply (rounded_idempotent 59.971 5 None). discriminate.
  - apply (rounded_idempotent 1.04 5 None). reflexivity.
Defined.


(** X9. With a limit of the tiles, the callback's speed test passes only
    for a filtered and calibrated speed of at least the limit minus 0.05,
    so the warning is played only for such a speed; and the test passes
    for every filtered and calibrated speed of at least the limit plus
    0.05. *)
Theorem alert_needs_speed_near_limit
        (location : Location) (now : Z) (app : App) (l : Q) :
  In l SPEED_LIMITS ->
  speedLimitRef app = Finite l ->
  (exceeds (currentSpeed (speedDataOf location app)) (speedLimitRef app) = true ->
   l - 0.05 <= filteredSpeedOf location app) /\
  (alerted location now app = true ->
   l - 0.05 <= filteredSpeedOf location app) /\
  (l + 0.05 <= filteredSpeedOf location app ->
   exceeds (currentSpeed (speedDataOf location app)) (speedLimitRef app) = true).
Proof.
  intros _ El.
  pose proof (rounded_error (filteredSpeedOf location app)) as HR.
  apply Qabs_Qle_condition in HR. destruct HR as [HR1 HR2].
  change (currentSpeed (speedDataOf location app))
    with (rounded (filteredSpeedOf location app)).
  rewrite El. cbn [exceeds].
  assert (A : Qle_bool l (rounded (filteredSpeedOf location app)) = true ->
              l - 0.05 <= filteredSpeedOf location app).
  { intro H. apply Qle_bool_iff in H. lra. }
  split; [exact A |]. split.
  - intro HA. rewrite alerted_eq, !andb_true_iff, El in HA.
    destruct HA as [[_ H] _]. apply A. exact H.
  - intro H. apply Qle_bool_iff. lra.
Qed.

Lemma alert_needs_speed_near_limit_witness :
  60 - 0.05 <= filteredSpeedOf (mkLocation (Some 17.87) (Some 5) (Some 1700000000000%Z))
                 (startLocationTracking 0%Z).
Proof.
  assert (Hl : In 60 SPEED_LIMITS) by (cbn; tauto).
  apply (proj1 (proj2 (alert_needs_speed_near_limit
                         (mkLocation (Some 17.87) (Some 5) (Some 1700000000000%Z))
                         1700000000000%Z (startLocationTracking 0%Z) 60
                         Hl eq_refl))).
  vm_compute. reflexivity.
Defined.

(** ** Speeds that count as standing still *)

Lemma convertToKmh_nonpos (s : Q) : s <= 0 -> convertToKmh s = 0.
Proof.
  intro H. unfold convertToKmh, Qmax, GenericMinMax.gmax.
  destruct (0 ?= s * 3.6) eqn:E; try reflexivity.
  apply Qlt_alt in E. lra.
Qed.

(** X10. A sample whose speed is missing, zero or negative is handled
    like a sample of speed 0 with the same accuracy and timestamp: the
    same filter update, the same published data, the same decision on
    the warning, the same stored warning time and the same completion. *)
Theorem nonpositive_speed_is_standstill
        (location : Location) (now : Z) (app : App) :
  let standstill := mkLocation (Some 0) (accuracy location) (timestamp location) in
  (speed location = None \/ exists s : Q, speed location = Some s /\ s <= 0) ->
  afterSample location now app = afterSample standstill now app /\
  publishedData (snd (fst (onLocation location now app)))
  = publishedData (snd (fst (onLocation standstill now app))) /\
  alerted location now app = alerted standstill now app /\
  snd (onLocation location now app) = snd (onLocation standstill now app).
Proof.
  cbv zeta. intro H.
  assert (E : onLocation location now app
              = onLocation (mkLocation (Some 0) (accuracy location) (timestamp location))
                  now app).
  { assert (Em : convertToKmh (nullish (speed location) 0) = 0).
    { destruct H as [H | (s & H & Hs)]; rewrite H; cbn [nullish].
      - reflexivity.
      - apply convertToKmh_nonpos, Hs. }
    rewrite !onLocation_effects.
    unfold speedDataOf, filteredSpeedOf. cbn [speed accuracy timestamp nullish].
    rewrite Em. reflexivity. }
  unfold afterSample, alerted. rewrite E. repeat split.
Qed.

Lemma nonpositive_speed_is_standstill_witness :
  afterSample (mkLocation (Some (-3)) (Some 5) (Some 1700000000000%Z))
    1700000000000%Z (startLocationTracking 0%Z)
  = afterSample (mkLocation (Some 0) (Some 5) (Some 1700000000000%Z))
      1700000000000%Z (startLocationTracking 0%Z).
Proof.
  apply (nonpositive_speed_is_standstill
           (mkLocation (Some (-3)) (Some 5) (Some 1700000000000%Z))
           1700000000000%Z (startLocationTracking 0%Z)).
  right. exists (-3). split; [reflexivity | discriminate].
Defined.

(** ** How many warnings fit in a span of time *)

Lemma spaced_bound (times : list Z) :
  forall (last T : Z),
    spaced last times ->
    Forall (fun t => (t <= T)%Z) times ->
    times = [] \/ (5000 * Z.of_nat (List.length times) < T - last)%Z.
Proof.
  induction times as [| t times IH]; intros last T Hs HT.
  - left. reflexivity.
  - right. destruct Hs as [Hgap Hs].
    inversion HT as [| ? ? Ht HT']; subst.
    destruct (IH t T Hs HT') as [E | H].
    + rewrite E. cbn. lia.
    + cbn [List.length]. lia.
Qed.

Lemma alertTimes_within (samples : list (Location * Z)) :
  forall (app : App) (T : Z),
    Forall (fun sample => (snd sample <= T)%Z) samples ->
    Forall (fun t => (t <= T)%Z) (alertTimes app samples).
Proof.
  induction samples as [| [location now] rest IH]; intros app T H.
  - constructor.
  - inversion H as [| ? ? Hnow Hrest]; subst. cbn [snd] in Hnow.
    rewrite alertTimes_cons.
    destruct (alerted location now app).
    + constructor; [exact Hnow | apply IH, Hrest].
    + apply IH, Hrest.
Qed.

(** X11. However many samples arrive and however fast, the callbacks
    whose clock readings are at most [T] play fewer than
    [(T - last) / 5000] warnings, [last] being the time of the warning
    before them (0 in a new session). *)
Theorem warnings_bounded_by_elapsed_time
        (app : App) (samples : list (Location * Z)) (T : Z) :
  Forall (fun sample => (snd sample <= T)%Z) samples ->
  countWarnings (snd (watchPosition app samples)) = 0%nat \/
  (5000 * Z.of_nat (countWarnings (snd (watchPosition app samples)))
   < T - lastSpeedWarning app)%Z.
Proof.
  intro H. rewrite countWarnings_alertTimes.
  destruct (spaced_bound (alertTimes app samples) (lastSpeedWarning app) T)
    as [E | Hb].
  - apply alertTimes_spaced.
  - apply alertTimes_within, H.
  - left. rewrite E. reflexivity.
  - right. exact Hb.
Qed.

Lemma warnings_bounded_by_elapsed_time_witness :
  let app := afterSample (mkLocation (Some 30) (Some 5) (Some 1700000000000%Z))
               1700000000000%Z (startLocationTracking 0%Z) in
  let samples := [(mkLocation (Some 30) (Some 5) (Some 1700000003000%Z), 1700000003000%Z);
                  (mkLocation (Some 30) (Some 5) (Some 1700000006000%Z), 1700000006000%Z);
                  (mkLocation (Some 30) (Some 5) (Some 1700000009000%Z), 1700000009000%Z)] in
  countWarnings (snd (watchPosition app samples)) = 0%nat \/
  (5000 * Z.of_nat (countWarnings (snd (watchPosition app samples)))
   < 1700000009000 - lastSpeedWarning app)%Z.
Proof.
  cbv zeta.
  apply (warnings_bounded_by_elapsed_time
           (afterSample (mkLocation (Some 30) (Some 5) (Some 1700000000000%Z))
              1700000000000%Z (startLocationTracking 0%Z))
           [(mkLocation (Some 30) (Some 5) (Some 1700000003000%Z), 1700000003000%Z);
            (mkLocation (Some 30) (Some 5) (Some 1700000006000%Z), 1700000006000%Z);
            (mkLocation (Some 30) (Some 5) (Some 1700000009000%Z), 1700000009000%Z)]
           1700000009000%Z).
  repeat constructor; discriminate.
Defined.

(** ** Colours, the warning image and the tiles *)

Lemma Qltb_true_iff (x y : Q) : Qltb x y = true <-> x < y.
Proof.
  unfold Qltb. rewrite negb_true_iff. split.
  - intro H. apply Qnot_le_lt. intro L. apply Qle_bool_iff in L. congruence.
  - intro H. destruct (Qle_bool y x) eqn:E; [| reflexivity].
    apply Qle_bool_iff in E. lra.
Qed.

Lemma Qltb_false_iff (x y : Q) : Qltb x y = false <-> y <= x.
Proof.
  unfold Qltb. rewrite negb_false_iff. apply Qle_bool_iff.
Qed.

Lemma getSpeedColor_finite (data : SpeedData) (l : Q) :
  let x := currentSpeed data in
  (l + 4 < x /\ getSpeedColor data (Finite l) = Red) \/
  (l < x /\ x <= l + 4 /\ getSpeedColor data (Finite l) = Orange) \/
  (l - 10 < x /\ x <= l /\ getSpeedColor data (Finite l) = Yellow) \/
  (x <= l - 10 /\ getSpeedColor data (Finite l) = Green).
Proof.
  cbv zeta. unfold getSpeedColor. cbn [limitPlus limitMinus above].
  destruct (Qltb (l + 4) (currentSpeed data)) eqn:E1.
  { apply Qltb_true_iff in E1. left. split; [exact E1 | reflexivity]. }
  apply Qltb_false_iff in E1.
  destruct (Qltb l (currentSpeed data)) eqn:E2.
  { apply Qltb_true_iff in E2. right; left. repeat split; assumption. }
  apply Qltb_false_iff in E2.
  destruct (Qltb (l - 10) (currentSpeed data)) eqn:E3.
  { apply Qltb_true_iff in E3. right; right; left. repeat split; assumption. }
  apply Qltb_false_iff in E3.
  right; right; right. split; [exact E3 | reflexivity].
Qed.

(** X12. The colour of the speedometer never gets milder when the speed
    goes up: for one limit, a higher published speed is drawn in a colour
    at least as severe (green, yellow, orange, red). *)
Theorem getSpeedColor_monotone (data data' : SpeedData) (limit : Limit) :
  currentSpeed data <= currentSpeed data' ->
  (severity (getSpeedColor data limit) <= severity (getSpeedColor data' limit))%nat.
Proof.
  intro H. destruct limit as [l |]; [| apply Nat.le_refl].
  destruct (getSpeedColor_finite data l)
    as [(A & E) | [(A & B & E) | [(A & B & E) | (A & E)]]];
    destruct (getSpeedColor_finite data' l)
      as [(A' & E') | [(A' & B' & E') | [(A' & B' & E') | (A' & E')]]];
    rewrite E, E'; cbn [severity]; try lia; exfalso; lra.
Qed.

Lemma getSpeedColor_monotone_witness :
  (severity (getSpeedColor (mkSpeedData 55 0 None) (Finite 60))
   <= severity (getSpeedColor (mkSpeedData 61.5 0 None) (Finite 60)))%nat.
Proof.
  apply (getSpeedColor_monotone (mkSpeedData 55 0 None) (mkSpeedData 61.5 0 None)
           (Finite 60)).
  discriminate.
Defined.

(** X13. The warning image is drawn exactly when the speedometer is
    orange or red; with the limit switched off the speedometer is green
    and the image is never drawn, whatever the speed. *)
Theorem warning_image_iff_orange_or_red (data : SpeedData) (limit : Limit) :
  (showsWarningImage data limit = true <->
   getSpeedColor data limit = Orange \/ getSpeedColor data limit = Red) /\
  getSpeedColor data Infinity = Green /\
  showsWarningImage data Infinity = false.
Proof.
  split; [| split; reflexivity].
  destruct limit as [l |].
  - unfold showsWarningImage. cbn [above]. rewrite Qltb_true_iff.
    destruct (getSpeedColor_finite data l)
      as [(A & E) | [(A & B & E) | [(A & B & E) | (A & E)]]]; rewrite E.
    + split; [intros _; right; reflexivity | intros _; lra].
    + split; [intros _; left; reflexivity | intros _; exact A].
    + split; [intro H; lra | intros [H | H]; discriminate H].
    + split; [intro H; lra | intros [H | H]; discriminate H].
  - cbn. split; [discriminate | intros [H | H]; discriminate H].
Qed.





Lemma handle_limit_offered (screen : Screen) (event : UiEvent) :
  offeredEvent event ->
  (speedLimit screen = Infinity \/
   exists l : Q, In l SPEED_LIMITS /\ speedLimit screen = Finite l) ->
  speedLimit (handle screen event) = Infinity \/
  exists l : Q, In l SPEED_LIMITS /\ speedLimit (handle screen event) = Finite l.
Proof.
  intros Ho H. destruct event as [limit | | location now]; cbn [handle speedLimit].
  - right. exists limit. split; [exact Ho | reflexivity].
  - left. reflexivity.
  - exact H.
Qed.

(** X15. As long as the numbered tiles are pressed with the limits on
    offer, exactly one tile is drawn as selected after any sequence of
    presses and positions: the tile of the current limit, or the OFF
    tile. *)
Theorem exactly_one_tile_selected (t0 : Z) (events : list UiEvent) :
  Forall offeredEvent events ->
  countSelected (selectedTiles (handleAll (initialScreen t0) events)) = 1%nat.
Proof.
  intro H.
  assert (G : forall screen : Screen,
             (speedLimit screen = Infinity \/
              exists l : Q, In l SPEED_LIMITS /\ speedLimit screen = Finite l) ->
             speedLimit (handleAll screen events) = Infinity \/
             exists l : Q, In l SPEED_LIMITS /\
                           speedLimit (handleAll screen events) = Finite l).
  { unfold handleAll.
    induction H as [| event events Ho _ IH]; intros screen Hs; cbn [fold_left].
    - exact Hs.
    - apply IH, handle_limit_offered; assumption. }
  destruct (G (initialScreen t0)) as [E | (l & Hin & E)].
  - right. exists INITIAL_SPEED. split; [| reflexivity].
    cbn. tauto.
  - unfold selectedTiles. rewrite E. reflexivity.
  - unfold selectedTiles. rewrite E.
    unfold SPEED_LIMITS in Hin. cbn [In] in Hin.
    repeat (destruct Hin as [Hin | Hin]; [rewrite <- Hin; reflexivity |]).
    contradiction.
Qed.

Lemma exactly_one_tile_selected_witness :
  countSelected
    (selectedTiles
       (handleAll (initialScreen 0%Z)
          [TilePressed 80; OffPressed;
           PositionReceived (mkLocation (Some 30) None None) 1700000000000%Z;
           TilePressed 120])) = 1%nat.
Proof.
  apply (exactly_one_tile_selected 0%Z
           [TilePressed 80; OffPressed;
            PositionReceived (mkLocation (Some 30) None None) 1700000000000%Z;
            TilePressed 120]).
  repeat constructor; cbn; tauto.
Defined.

(** ** The rolling buffer of the chart *)

Lemma sliceLast_length {A : Type} (k : nat) (l : list A) :
  List.length (SpeedTimeChart.sliceLast k l) = Nat.min (List.length l) k.
Proof. unfold SpeedTimeChart.sliceLast. rewrite length_skipn. lia. Qed.

Lemma sliceLast_short {A : Type} (k : nat) (l : list A) :
  (List.length l <= k)%nat -> SpeedTimeChart.sliceLast k l = l.
Proof.
  intro H. unfold SpeedTimeChart.sliceLast.
  replace (List.length l - k)%nat with 0%nat by lia. reflexivity.
Qed.

Lemma sliceLast_app {A : Type} (k : nat) (l l' : list A) :
  SpeedTimeChart.sliceLast k (SpeedTimeChart.sliceLast k l ++ l')
  = SpeedTimeChart.sliceLast k (l ++ l').
Proof.
  destruct (Nat.le_gt_cases (List.length l) k) as [H | H].
  - rewrite (sliceLast_short k l H). reflexivity.
  - unfold SpeedTimeChart.sliceLast at 1 3.
    rewrite !length_app, sliceLast_length.
    replace (Nat.min (List.length l) k + List.length l' - k)%nat
      with (List.length l')%nat by lia.
    replace (List.length l + List.length l' - k)%nat
      with (List.length l' + (List.length l - k))%nat by lia.
    rewrite <- skipn_skipn. f_equal.
    unfold SpeedTimeChart.sliceLast.
    rewrite skipn_app.
    replace (List.length l - k - List.length l)%nat with 0%nat by lia.
    reflexivity.
Qed.

Lemma tick_sliceLast (startTime : Z) (data : list SpeedTimeChart.DataPoint)
      (run : Z * Q) :
  SpeedTimeChart.tick startTime data run
  = SpeedTimeChart.sliceLast 20 (data ++ SpeedTimeChart.pointsOf startTime [run]).
Proof.
  destruct run as [currentTime newSpeed].
  unfold SpeedTimeChart.tick, SpeedTimeChart.pointsOf. cbn [map fst snd].
  destruct (20 <? List.length (data ++ _))%nat eqn:E; [reflexivity |].
  apply Nat.ltb_ge in E. symmetry. apply sliceLast_short, E.
Qed.

Lemma ticks_sliceLast (startTime : Z) (runs : list (Z * Q)) :
  forall data : list SpeedTimeChart.DataPoint,
    (List.length data <= 20)%nat ->
    SpeedTimeChart.ticks startTime data runs
    = SpeedTimeChart.sliceLast 20 (data ++ SpeedTimeChart.pointsOf startTime runs).
Proof.
  unfold SpeedTimeChart.ticks.
  induction runs as [| run runs IH]; intros data H; cbn [fold_left].
  - unfold SpeedTimeChart.pointsOf. cbn [map]. rewrite app_nil_r.
    symmetry. apply sliceLast_short, H.
  - rewrite IH.
    + rewrite tick_sliceLast, sliceLast_app, <- app_assoc. reflexivity.
    + rewrite tick_sliceLast, sliceLast_length. lia.
Qed.

(** X16. The chart holds the last 20 points of everything it was given:
    after any number of runs of the interval callback the buffer is the
    20 newest of the initial points followed by one point per run, or all
    of them while there are fewer. *)
Theorem chart_keeps_newest_20 (startTime : Z) (runs : list (Z * Q)) :
  forall data : list SpeedTimeChart.DataPoint,
    (List.length data <= 20)%nat ->
    SpeedTimeChart.ticks startTime data runs
    = SpeedTimeChart.sliceLast 20 (data ++ SpeedTimeChart.pointsOf startTime runs).
Proof. apply ticks_sliceLast. Qed.

Lemma chart_keeps_newest_20_witness :
  SpeedTimeChart.ticks 1000%Z SpeedTimeChart.initialData [(2000%Z, 12.5); (3000%Z, 13)]
  = SpeedTimeChart.sliceLast 20
      (SpeedTimeChart.initialData
       ++ SpeedTimeChart.pointsOf 1000%Z [(2000%Z, 12.5); (3000%Z, 13)]).
Proof.
  apply (chart_keeps_newest_20 1000%Z [(2000%Z, 12.5); (3000%Z, 13)]
           SpeedTimeChart.initialData).
  cbn. lia.
Defined.

(** X17. The chart never holds more than 20 points: from its initial
    single point it holds one more per run until it has 20, and its
    labels and its values always come in equal number. *)
Theorem chart_length (startTime : Z) (runs : list (Z * Q)) :
  let data := SpeedTimeChart.ticks startTime SpeedTimeChart.initialData runs in
  List.length data = Nat.min (1 + List.length runs) 20 /\
  List.length (SpeedTimeChart.chartLabels data) = List.length data /\
  List.length (SpeedTimeChart.chartValues data) = List.length data.
Proof.
  cbv zeta. split.
  - rewrite ticks_sliceLast by (cbn; lia).
    rewrite sliceLast_length, length_app.
    unfold SpeedTimeChart.pointsOf. rewrite length_map. reflexivity.
  - unfold SpeedTimeChart.chartLabels, SpeedTimeChart.chartValues.
    rewrite !length_map. split; reflexivity.
Qed.

Lemma sliceLast_map {A B : Type} (f : A -> B) (k : nat) (l : list A) :
  map f (SpeedTimeChart.sliceLast k l) = SpeedTimeChart.sliceLast k (map f l).
Proof.
  unfold SpeedTimeChart.sliceLast. rewrite length_map. symmetry. apply skipn_map.
Qed.

(** X18. The plotted series is the last 20 of the speeds the callback
    read, after the initial 0, in order; neither the start time nor the
    clock readings of the runs change it. *)
Theorem chart_plots_newest_speeds (startTime : Z) (runs : list (Z * Q)) :
  SpeedTimeChart.chartValues
    (SpeedTimeChart.ticks startTime SpeedTimeChart.initialData runs)
  = SpeedTimeChart.sliceLast 20 (0 :: map snd runs).
Proof.
  rewrite ticks_sliceLast by (cbn; lia).
  unfold SpeedTimeChart.chartValues. rewrite sliceLast_map, map_app.
  unfold SpeedTimeChart.pointsOf. rewrite map_map. reflexivity.
Qed.

(** ** How fast a constant speed is reached *)

(** X19. When a new filter is fed the same measurement [m] again and
    again, the distance of its estimate to [m] is at most [|m| / 2^n]
    after [n] updates. *)
Theorem estimate_error_bound (m : Q) (n : nat) :
  Qabs (estimateAfter m n - m) <= Qabs m / pow2 n.
Proof.
  apply Qle_shift_div_l; [apply pow2_pos |].
  eapply Qle_trans; [apply estimate_error_geometric |].
  unfold estimateAfter. cbn [feedConstant createKalmanFilter st_X].
  assert (E : 0 - m == - m) by ring.
  rewrite E, Qabs_opp. apply Qle_refl.
Qed.

(** ** The callback on JavaScript numbers *)

Lemma speedBound_fits :
  10 <= speedBound /\ speedBound + speedBound + 2 < Js.overflowThreshold.
Proof. split; [discriminate | reflexivity]. Qed.

Lemma fit_in_range (q : Q) :
  - Js.overflowThreshold < q -> q < Js.overflowThreshold -> Js.fit q = Js.Num q.
Proof.
  intros Hlo Hhi. unfold Js.fit.
  destruct (Qle_bool Js.overflowThreshold q) eqn:E1.
  { apply Qle_bool_iff in E1. lra. }
  destruct (Qle_bool q (- Js.overflowThreshold)) eqn:E2.
  { apply Qle_bool_iff in E2. lra. }
  reflexivity.
Qed.

Lemma fit_small (q : Q) :
  - (speedBound + 1) <= q <= speedBound + 1 -> Js.fit q = Js.Num q.
Proof.
  intros [Hlo Hhi]. destruct speedBound_fits as [H1 H2].
  apply fit_in_range; lra.
Qed.

Lemma Qmax_0_nonpos (q : Q) : q <= 0 -> Qmax 0 q = 0.
Proof.
  intro H. unfold Qmax, GenericMinMax.gmax.
  destruct (0 ?= q) eqn:E; try reflexivity.
  apply Qlt_alt in E. lra.
Qed.

Lemma convertToKmh_agrees (s : Q) :
  s * 3.6 <= speedBound ->
  Js.convertToKmh (Js.Num s) = Js.Num (convertToKmh s).
Proof.
  intro H. destruct speedBound_fits as [H1 H2].
  unfold Js.convertToKmh, convertToKmh. cbn [Js.mul].
  unfold Js.fit.
  destruct (Qle_bool Js.overflowThreshold (s * 3.6)) eqn:E1.
  { apply Qle_bool_iff in E1. lra. }
  destruct (Qle_bool (s * 3.6) (- Js.overflowThreshold)) eqn:E2.
  - apply Qle_bool_iff in E2. cbn [Js.max0].
    rewrite Qmax_0_nonpos by lra. reflexivity.
  - reflexivity.
Qed.

Lemma convertToKmh_range (s : Q) :
  s * 3.6 <= speedBound -> 0 <= convertToKmh s <= speedBound.
Proof.
  intro H. destruct speedBound_fits as [H1 _]. unfold convertToKmh. split.
  - apply Q.le_max_l.
  - apply Q.max_lub; lra.
Qed.

Lemma kalmanFilter_agrees (s : KalmanFilterState) (m : Q) :
  sessionFilter s -> 0 <= m <= speedBound ->
  Js.kalmanFilter (jsKalman s) (Js.Num m)
  = (jsKalman (fst (kalmanFilter s m)), Js.Num (snd (kalmanFilter s m))) /\
  sessionFilter (fst (kalmanFilter s m)).
Proof.
  intros (ER & EQ & [HP0 HP1] & [HX0 HX1]) [Hm0 Hm1].
  destruct speedBound_fits as [HB1 HB2].
  assert (Hw : wellFormed s) by (unfold wellFormed; rewrite ER, EQ; lra).
  pose proof (kalmanFilter_between s m 0 speedBound Hw (conj HX0 HX1) (conj Hm0 Hm1))
    as Hout.
  pose proof (kalmanFilter_bounds s m Hw) as Hb. cbv zeta in Hb.
  rewrite kalmanFilter_unfold in Hout, Hb |- *. cbn in Hout, Hb |- *.
  unfold Js.kalmanFilter, jsKalman. cbn.
  set (p := st_P s + st_Q s) in *.
  assert (Hp : 0 < p) by (unfold p; rewrite EQ; lra).
  assert (Hp1 : p <= 2) by (unfold p; rewrite EQ; lra).
  assert (HR : 0 < st_R s) by (rewrite ER; lra).
  rewrite (fit_small p) by lra.
  cbn [Js.add Js.div].
  rewrite (fit_small (p + st_R s)) by (rewrite ER; lra).
  cbn [Js.div].
  assert (Hnz : Qeq_bool (p + st_R s) 0 = false).
  { destruct (Qeq_bool (p + st_R s) 0) eqn:E; [| reflexivity].
    apply Qeq_bool_iff in E. lra. }
  rewrite Hnz.
  pose proof (gain_pos p (st_R s) Hp HR) as K0.
  pose proof (gain_lt_1 p (st_R s) Hp HR) as K1.
  set (k := p / (p + st_R s)) in *.
  rewrite (fit_small k) by lra.
  cbn [Js.sub Js.mul Js.add].
  rewrite (fit_small (m - st_X s)) by lra.
  cbn [Js.mul].
  assert (Hprod : - speedBound <= k * (m - st_X s) <= speedBound).
  { split; nra. }
  rewrite (fit_small (k * (m - st_X s))) by lra.
  cbn [Js.add].
  rewrite (fit_small (st_X s + k * (m - st_X s))) by lra.
  rewrite (fit_small (1 - k)) by lra.
  cbn [Js.mul].
  assert (Hpost : 0 <= (1 - k) * p <= 2) by (split; nra).
  rewrite (fit_small ((1 - k) * p)) by lra.
  split; [reflexivity |].
  unfold sessionFilter. cbn.
  destruct Hb as (_ & Hlt & _).
  repeat split; try assumption; try lra.
  rewrite ER in Hlt. lra.
Qed.

Lemma nullish_jsNum (o : option Q) :
  nullish (option_map Js.Num o) (Js.Num 0) = Js.Num (nullish o 0).
Proof. destruct o; reflexivity. Qed.

Lemma ge_jsLimit (x : Q) (limit : Limit) :
  Js.ge (Js.Num x) (jsLimit limit) = exceeds x limit.
Proof. destruct limit; reflexivity. Qed.

Lemma onLocation_agrees (location : Location) (now : Z) (app : App) :
  sessionFilter (kalman app) -> inRange location ->
  Js.onLocation (jsLocation location) now (jsApp app)
  = (jsApp (afterSample location now app),
     map jsEffect (snd (fst (onLocation location now app))),
     snd (onLocation location now app)) /\
  sessionFilter (kalman (afterSample location now app)).
Proof.
  intros Hs Hr. unfold inRange in Hr.
  destruct speedBound_fits as [HB1 HB2].
  pose proof (convertToKmh_range _ Hr) as Hm.
  destruct (kalmanFilter_agrees (kalman app) _ Hs Hm) as [HK Hs'].
  destruct (afterSample_refs location now app) as (EK & _).
  split; [| rewrite EK; exact Hs'].
  unfold afterSample. rewrite onLocation_effects. cbv zeta.
  unfold Js.onLocation.
  cbn [jsLocation jsApp Js.speed Js.accuracy Js.timestamp Js.kalman
       Js.speedLimitRef Js.lastSpeedWarning].
  rewrite !nullish_jsNum, (convertToKmh_agrees _ Hr), HK.
  assert (Hx : 0 <= snd (kalmanFilter (kalman app)
                           (convertToKmh (nullish (speed location) 0)))
               <= speedBound).
  { apply kalmanFilter_between; [| apply Hs | exact Hm].
    destruct Hs as (ER & EQ & HP & _).
    unfold wellFormed. rewrite ER, EQ. lra. }
  cbn [Js.add].
  rewrite fit_small by (unfold CALIBRATION; lra).
  cbn [Js.rounded Js.speedLimitRef Js.lastSpeedWarning].
  rewrite ge_jsLimit.
  change (parseFloat (toFixed1 (snd (kalmanFilter (kalman app)
                                       (convertToKmh (nullish (speed location) 0)))
                                + CALIBRATION)))
    with (currentSpeed (speedDataOf location app)).
  destruct (validTime (timestamp location)),
    (exceeds (currentSpeed (speedDataOf location app)) (speedLimitRef app)),
    (5000 <? now - lastSpeedWarning app)%Z; reflexivity.
Qed.

Lemma watchPosition_agrees (samples : list (Location * Z)) :
  forall app : App,
    sessionFilter (kalman app) ->
    Forall (fun sample => inRange (fst sample)) samples ->
    Js.watchPosition (jsApp app) (map jsSample samples)
    = (jsApp (fst (watchPosition app samples)),
       map jsEffect (snd (watchPosition app samples))).
Proof.
  induction samples as [| [location now] rest IH]; intros app Hs Hr.
  - reflexivity.
  - inversion Hr as [| ? ? H1 H2]; subst. cbn [fst] in H1.
    destruct (onLocation_agrees location now app Hs H1) as [E Hs'].
    rewrite watchPosition_cons. cbn [map jsSample fst snd Js.watchPosition].
    rewrite E, (IH _ Hs' H2), map_app. reflexivity.
Qed.

Lemma countWarnings_jsEffect (effects : list Effect) :
  Js.countWarnings (map jsEffect effects) = countWarnings effects.
Proof.
  unfold Js.countWarnings, countWarnings.
  induction effects as [| e effects IH]; [reflexivity |].
  destruct e; cbn in *; rewrite ?IH; reflexivity.
Qed.


Lemma startLocationTracking_sessionFilter (t0 : Z) :
  sessionFilter (kalman (startLocationTracking t0)).
Proof.
  unfold sessionFilter. cbn.
  repeat split; try reflexivity; try discriminate.
Qed.

Example nan_speed_publishes_nan :
  Js.currentSpeed
    (Js.speedData
       (Js.afterSample (Js.mkLocation (Some Js.NaN) (Some (Js.Num 5)) (Some 1000%Z))
          1700000000000%Z (Js.startLocationTracking 0%Z)))
  = Js.NaN.
Proof. reflexivity. Qed.

Example overflow_then_nan :
  map Js.currentSpeed
    (Js.publishedData
       (snd (Js.watchPosition (Js.startLocationTracking 0%Z)
               [(Js.mkLocation (Some (Js.Num (inject_Z (10 ^ 308)))) None (Some 1000%Z),
                 1700000000000%Z);
                (Js.mkLocation (Some (Js.Num 10)) None (Some 2000%Z),
                 1700000001000%Z)])))
  = [Js.PosInfinity; Js.NaN].
Proof. vm_compute. reflexivity. Qed.


(** X20. With the limit switched off, no stream of samples whose speeds
    are missing or finite with [speed * 3.6] at most 1e300 plays the
    warning: on such samples the published speed stays finite, and a
    finite speed never meets [Infinity]. *)
Theorem off_is_silent_in_range (app : App) (samples : list (Location * Z)) :
  sessionFilter (kalman app) ->
  Forall (fun sample => inRange (fst sample)) samples ->
  Js.countWarnings
    (snd (Js.watchPosition (Js.pressOff (jsApp app)) (map jsSample samples)))
  = 0%nat.
Proof.
  intros Hs Hr.
  change (Js.pressOff (jsApp app)) with (jsApp (pressOff app)).
  rewrite watchPosition_agrees by assumption. cbn [snd].
  rewrite countWarnings_jsEffect, countWarnings_alertTimes, alertTimes_off;
    reflexivity.
Qed.

Lemma off_is_silent_in_range_witness :
  Js.countWarnings
    (snd (Js.watchPosition
            (Js.pressOff (jsApp (startLocationTracking 0%Z)))
            (map jsSample
               [(mkLocation (Some 30) (Some 5) (Some 1700000000000%Z), 1700000000000%Z);
                (mkLocation (Some 250) None (Some 1700000006000%Z), 1700000006000%Z)])))
  = 0%nat.
Proof.
  apply (off_is_silent_in_range (startLocationTracking 0%Z)
           [(mkLocation (Some 30) (Some 5) (Some 1700000000000%Z), 1700000000000%Z);
            (mkLocation (Some 250) None (Some 1700000006000%Z), 1700000006000%Z)]).
  - apply startLocationTracking_sessionFilter.
  - repeat constructor; discriminate.
Defined.


